(** * API-AppReceitas: the recipe browser's state logic

    A shallow embedding of the two variants of the [App] component:

    - [ClientPaginated]: src/API-AppReceitas/src/App.tsx.  One fetch on
      mount of the whole collection; pages are slices of it.
    - [ServerPaginated]: the later variant with search, sort, server-side
      pagination and the detail overlay.

    React state is a record, a state setter call is a value of [setter],
    an event handler is the list of calls it makes, a rendered component is
    a tree of [vnode]s whose handlers close over the rendered state, and the
    asynchronous [fetchRecipes] is the list of its steps, cut at each
    [await]. *)

From Stdlib Require Import ZArith List String Ascii Bool Lia.
From Stdlib Require Import QArith Qround Qabs DecimalString Relations.
Import ListNotations.
Set Warnings "-register-all".
Local Open Scope string_scope.
Local Open Scope Z_scope.

(** ** The JavaScript primitives the components use *)

Module JS.

(** [`${n}`] / [{n}] for an integer-valued number: its decimal digits, with
    a leading minus sign below zero (exact below 1e21, where JavaScript
    switches to exponent notation). *)
Definition Number_toString (n : Z) : string :=
  NilZero.string_of_int (Z.to_int n).

Definition Math_max (a b : Z) : Z := Z.max a b.
Definition Math_min (a b : Z) : Z := Z.min a b.

(** [Math.ceil(a / b)] for integer-valued [a] and [b]: the quotient is taken
    in the rationals, then rounded up. *)
Definition Math_ceil (x : Q) : Z := Qceiling x.
Definition divide (a b : Z) : Q := (inject_Z a / inject_Z b)%Q.

(** Truthiness of a string, of [string | null] and of [T | null] for an
    object type [T]. *)
Definition truthy (s : string) : bool :=
  match s with EmptyString => false | String _ _ => true end.

Definition truthy_opt (e : option string) : bool :=
  match e with None => false | Some s => truthy s end.

Definition is_object {A : Type} (o : option A) : bool :=
  match o with None => false | Some _ => true end.

(** [Array.prototype.slice(start, end)]: a negative index counts from the
    end, both indices are clamped to the array. *)
Definition relative_index (len i : Z) : Z :=
  if i <? 0 then Z.max (len + i) 0 else Z.min i len.

Definition slice {A : Type} (l : list A) (start finish : Z) : list A :=
  let len := Z.of_nat (List.length l) in
  let k := relative_index len start in
  let final := relative_index len finish in
  firstn (Z.to_nat (final - k)) (skipn (Z.to_nat k) l).

(** [array[i]] for an integer [i]: [undefined] outside the array. *)
Definition at_index {A : Type} (l : list A) (i : Z) : option A :=
  if i <? 0 then None else nth_error l (Z.to_nat i).

(** [Array.prototype.join]. *)
Definition join (sep : string) (l : list string) : string :=
  String.concat sep l.

(** [String.prototype.includes]. *)
Fixpoint includes (hay needle : string) : bool :=
  String.prefix needle hay
  || match hay with
     | EmptyString => false
     | String _ rest => includes rest needle
     end.

(** [String.prototype.toLowerCase] on the ASCII letters; other bytes are
    kept. *)
Definition lower_ascii (c : ascii) : ascii :=
  let n := nat_of_ascii c in
  if (Nat.leb 65 n && Nat.leb n 90)%bool then ascii_of_nat (n + 32) else c.

Fixpoint toLowerCase (s : string) : string :=
  match s with
  | EmptyString => EmptyString
  | String c rest => String (lower_ascii c) (toLowerCase rest)
  end.

(** [Number.prototype.toFixed(f)] on a finite number, given as the rational
    it denotes: the sign is that of [x]; the digits are those of the
    integer nearest to [|x| * 10^f], the larger one on a tie. *)
Fixpoint zeros (n : nat) : string :=
  match n with O => EmptyString | S n' => String "0" (zeros n') end.

Definition pad_left (width : nat) (s : string) : string :=
  zeros (width - String.length s) ++ s.

Definition toFixed (x : Q) (f : nat) : string :=
  let scale := 10 ^ Z.of_nat f in
  let n := Qfloor (Qabs x * inject_Z scale + (1 # 2))%Q in
  (if Qle_bool 0 x then "" else "-")
  ++ Number_toString (n / scale)
  ++ match f with
     | O => ""
     | S _ => "." ++ pad_left f (Number_toString (n mod scale))
     end.

End JS.

(** ** Rendered trees and event dispatch *)

(** React's [SetStateAction<S>]: a new value, or a function of the previous
    one. *)
Inductive SetStateAction (S : Type) : Type :=
| Value (v : S)
| Updater (f : S -> S).
Arguments Value {S} v.
Arguments Updater {S} f.

Definition resolve {S : Type} (a : SetStateAction S) (prev : S) : S :=
  match a with
  | Value v => v
  | Updater f => f prev
  end.

Section VDom.

(** [U] is the type of the state setter calls of the component. *)
Variable U : Type.

(** What an event handler does: state setter calls, and
    [e.stopPropagation()]. *)
Inductive reaction : Type :=
| Set_ (u : U)
| StopPropagation.

Definition handler : Type := list reaction.

Inductive vnode : Type :=
| Text (s : string)
| Element (tag : string) (attrs : list (string * string)) (disabled : bool)
          (onClick : option handler) (onChange : option (string -> handler))
          (children : list vnode).

Definition tag_of (t : vnode) : string :=
  match t with Text _ => "" | Element tag _ _ _ _ _ => tag end.

Definition children_of (t : vnode) : list vnode :=
  match t with Text _ => [] | Element _ _ _ _ _ ch => ch end.

Definition attr (name : string) (t : vnode) : option string :=
  match t with
  | Text _ => None
  | Element _ attrs _ _ _ _ =>
      option_map snd (find (fun kv => String.eqb (fst kv) name) attrs)
  end.

(** The text of a node, for reading rendered lists back. *)
Definition text_of (t : vnode) : list string :=
  match t with
  | Text s => [s]
  | Element _ _ _ _ _ ch =>
      flat_map (fun c => match c with Text s => [s] | _ => [] end) ch
  end.

(** The element at a path of child indices. *)
Fixpoint node_at (p : list nat) (t : vnode) : option vnode :=
  match p with
  | [] => Some t
  | i :: p' =>
      match nth_error (children_of t) i with
      | Some c => node_at p' c
      | None => None
      end
  end.

Definition own_click (t : vnode) : handler :=
  match t with
  | Element _ _ _ (Some h) _ _ => h
  | _ => []
  end.

Definition is_disabled (t : vnode) : bool :=
  match t with Element _ _ d _ _ _ => d | Text _ => false end.

Definition is_element (t : vnode) : bool :=
  match t with Element _ _ _ _ _ _ => true | Text _ => false end.

(** The click handlers met by a click on the element at path [p], from the
    target up to the root (bubbling order).  [None] when the path names no
    element. *)
Fixpoint propagation_path (p : list nat) (t : vnode) : option (list vnode) :=
  match p with
  | [] => if is_element t then Some [t] else None
  | i :: p' =>
      match nth_error (children_of t) i with
      | Some c =>
          match propagation_path p' c with
          | Some below => Some (below ++ [t])%list
          | None => None
          end
      | None => None
      end
  end.

(** Handlers run from the target upwards; propagation ends after a handler
    that called [stopPropagation]. *)
Definition calls (h : handler) : list U :=
  flat_map (fun r => match r with Set_ u => [u] | StopPropagation => [] end) h.

Definition stops (h : handler) : bool :=
  existsb (fun r => match r with StopPropagation => true | Set_ _ => false end) h.

Fixpoint bubble (hs : list handler) : list U :=
  match hs with
  | [] => []
  | h :: rest => (calls h ++ (if stops h then [] else bubble rest))%list
  end.

(** A click on the element at path [p]: the setter calls made, in order.
    A disabled control receives no click. *)
Definition click (t : vnode) (p : list nat) : option (list U) :=
  match propagation_path p t with
  | None => None
  | Some path =>
      if existsb is_disabled path then Some []
      else Some (bubble (map own_click path))
  end.

(** The values a control can report: a [select] only those of its
    [option]s, a text input any string. *)
Definition offers (t : vnode) (value : string) : bool :=
  if String.eqb (tag_of t) "select" then
    existsb (fun c => match attr "value" c with
                      | Some v => String.eqb v value
                      | None => false
                      end)
            (children_of t)
  else true.

Definition own_change (t : vnode) (value : string) : handler :=
  match t with
  | Element _ _ _ _ (Some h) _ => h value
  | _ => []
  end.

(** A change event on the control at path [p] carrying [e.target.value]:
    the setter calls of the control's [onChange]. *)
Definition change (t : vnode) (p : list nat) (value : string)
  : option (list U) :=
  match node_at p t with
  | Some target =>
      if is_element target && offers target value then
        if is_disabled target then Some []
        else Some (calls (own_change target value))
      else None
  | None => None
  end.

End VDom.

Arguments Set_ {U} u.
Arguments StopPropagation {U}.
Arguments Text {U} s.
Arguments Element {U} tag attrs disabled onClick onChange children.
Arguments tag_of {U} t.
Arguments children_of {U} t.
Arguments attr {U} name t.
Arguments text_of {U} t.
Arguments node_at {U} p t.
Arguments own_click {U} t.
Arguments is_disabled {U} t.
Arguments is_element {U} t.
Arguments propagation_path {U} p t.
Arguments calls {U} h.
Arguments stops {U} h.
Arguments bubble {U} hs.
Arguments click {U} t p.
Arguments offers {U} t value.
Arguments own_change {U} t value.
Arguments change {U} t p value.

(** JSX shorthands. *)
Definition el {U : Type} (tag className : string) (children : list (vnode U))
  : vnode U :=
  Element tag [("className", className)] false None None children.

Definition el' {U : Type} (tag : string) (children : list (vnode U)) : vnode U :=
  Element tag [] false None None children.

Definition img {U : Type} (src alt className : string) : vnode U :=
  Element "img" [("src", src); ("alt", alt); ("className", className)]
          false None None [].

(** [key={k}] on a list item. *)
Definition keyed {U : Type} (k : string) (t : vnode U) : vnode U :=
  match t with
  | Text s => Text s
  | Element tag attrs d oc och ch => Element tag (("key", k) :: attrs) d oc och ch
  end.

(** A tree that reacts to nothing: no handler and no disabled control in it. *)
Fixpoint inert {U : Type} (t : vnode U) : bool :=
  match t with
  | Text _ => true
  | Element _ _ d oc och ch =>
      negb d
      && match oc with None => true | Some _ => false end
      && match och with None => true | Some _ => false end
      && forallb inert ch
  end.

(** Every setter call a handler of the tree can make satisfies [Q]. *)
Fixpoint all_handlers {U : Type} (Q : U -> Prop) (t : vnode U) : Prop :=
  match t with
  | Text _ => True
  | Element _ _ _ oc och ch =>
      match oc with Some h => Forall Q (calls h) | None => True end
      /\ match och with
         | Some f => forall value, Forall Q (calls (f value))
         | None => True
         end
      /\ (fix each (l : list (vnode U)) : Prop :=
            match l with
            | [] => True
            | c :: l' => all_handlers Q c /\ each l'
            end) ch
  end.

Definition each_child {U : Type} (Q : U -> Prop) (l : list (vnode U)) : Prop :=
  (fix each (l : list (vnode U)) : Prop :=
     match l with
     | [] => True
     | c :: l' => all_handlers Q c /\ each l'
     end) l.

(** ** The network *)

(** What a [catch] clause may receive: an [Error] object with its message, or
    any other thrown value. *)
Inductive thrown : Type :=
| ErrorObject (message : string)
| OtherValue.

Section Network.

(** [D] is the type of the parsed response body. *)
Variable D : Type.

(** A [Response]: its status, and what [response.json()] settles to. *)
Record Response : Type := {
  status : Z;
  json : thrown + D
}.

(** [response.ok]: the status is in the range 200-299. *)
Definition ok (r : Response) : bool :=
  (200 <=? status r) && (status r <=? 299).

(** How [fetch(url)] settles. *)
Inductive outcome : Type :=
| Rejected (e : thrown)
| Resolved (r : Response).

End Network.

Arguments status {D} r.
Arguments json {D} r.
Arguments ok {D} r.
Arguments Rejected {D} e.
Arguments Resolved {D} r.

(** ** Asynchronous functions as step lists *)

Section Async.

Variable U : Type.

(** One step of an [async] function: a state setter call, or an [await]
    at which the function is suspended and other events are handled. *)
Inductive step : Type :=
| Call (u : U)
| AwaitFetch (url : string)
| AwaitJson.

(** The setter calls made up to the next [await], and the steps left after
    it. *)
Fixpoint advance (k : list step) : list U * list step :=
  match k with
  | [] => ([], [])
  | Call u :: k' => let (us, rest) := advance k' in (u :: us, rest)
  | AwaitFetch _ :: k' => ([], k')
  | AwaitJson :: k' => ([], k')
  end.

(** All the setter calls of a run, in order. *)
Definition all_calls (k : list step) : list U :=
  flat_map (fun st => match st with Call u => [u] | _ => [] end) k.

(** The setter calls made before the request is issued. *)
Fixpoint before_request (k : list step) : list U :=
  match k with
  | [] => []
  | Call u :: k' => u :: before_request k'
  | AwaitFetch _ :: _ => []
  | AwaitJson :: k' => before_request k'
  end.

(** The URL requested. *)
Fixpoint requested (k : list step) : option string :=
  match k with
  | [] => None
  | AwaitFetch url :: _ => Some url
  | _ :: k' => requested k'
  end.

End Async.

Arguments Call {U} u.
Arguments AwaitFetch {U} url.
Arguments AwaitJson {U}.
Arguments advance {U} k.
Arguments all_calls {U} k.
Arguments before_request {U} k.
Arguments requested {U} k.

Definition button {U : Type} (attrs : list (string * string)) (disabled : bool)
    (onClick : handler U) (children : list (vnode U)) : vnode U :=
  Element "button" attrs disabled (Some onClick) None children.

Definition unknown_error : string := "Ocorreu um erro desconhecido".

(** The [catch (e)] clauses' message: [e.message] of an [Error], a fixed text
    otherwise. *)
Definition message_of (e : thrown) : string :=
  match e with
  | ErrorObject m => m
  | OtherValue => unknown_error
  end.

(** ** The client-paginated variant (src/API-AppReceitas/src/App.tsx) *)

Module ClientPaginated.

Record Recipe : Type := {
  id : Z;
  name : string;
  image : string;
  mealType : list string;
  prepTimeMinutes : Z;
  cookTimeMinutes : Z;
  servings : Z;
  caloriesPerServing : Z;
  rating : Q;
  difficulty : string
}.

(** The body of the listing response, as far as the component reads it. *)
Module Data.
Record t : Type := { recipes : list Recipe }.
End Data.

(** The four [useState] cells of [App]. *)
Record State : Type := {
  recipes : list Recipe;
  loading : bool;
  error : option string;
  currentPage : Z
}.

Inductive setter : Type :=
| setRecipes (a : SetStateAction (list Recipe))
| setLoading (a : SetStateAction bool)
| setError (a : SetStateAction (option string))
| setCurrentPage (a : SetStateAction Z).

Definition initial : State :=
  {| recipes := []; loading := true; error := None; currentPage := 1 |}.

Definition apply (u : setter) (s : State) : State :=
  match u with
  | setRecipes a =>
      {| recipes := resolve a (recipes s); loading := loading s;
         error := error s; currentPage := currentPage s |}
  | setLoading a =>
      {| recipes := recipes s; loading := resolve a (loading s);
         error := error s; currentPage := currentPage s |}
  | setError a =>
      {| recipes := recipes s; loading := loading s;
         error := resolve a (error s); currentPage := currentPage s |}
  | setCurrentPage a =>
      {| recipes := recipes s; loading := loading s;
         error := error s; currentPage := resolve a (currentPage s) |}
  end.

Definition run (us : list setter) (s : State) : State :=
  fold_left (fun acc u => apply u acc) us s.

Definition RECIPES_PER_PAGE : Z := 6.

(** *** [RecipeCard] *)

Definition RecipeCard (recipe : Recipe) : vnode setter :=
  el "div" "recipe-card"
    [ img (image recipe) (name recipe) "recipe-image";
      el "div" "recipe-content"
        [ el "span" "recipe-type" [Text (JS.join ", " (mealType recipe))];
          el "h3" "recipe-name" [Text (name recipe)];
          el "div" "recipe-details"
            [ el' "p" [el' "strong" [Text "Preparo:"]; Text " ";
                       Text (JS.Number_toString (prepTimeMinutes recipe));
                       Text " min"];
              el' "p" [el' "strong" [Text "Cozimento:"]; Text " ";
                       Text (JS.Number_toString (cookTimeMinutes recipe));
                       Text " min"];
              el' "p" [el' "strong" [Text "Porções:"]; Text " ";
                       Text (JS.Number_toString (servings recipe))];
              el' "p" [el' "strong" [Text "Kcal/porção:"]; Text " ";
                       Text (JS.Number_toString (caloriesPerServing recipe))] ];
          el "div" "recipe-footer"
            [ el' "span" [el' "strong" [Text "Nota:"]; Text " ";
                          Text (JS.toFixed (rating recipe) 1); Text " ⭐"];
              el' "span" [el' "strong" [Text "Dificuldade:"]; Text " ";
                          Text (difficulty recipe)] ] ] ].

(** *** [fetchRecipes], the effect run once on mount *)

Definition listing_url : string := "https://dummyjson.com/recipes?limit=0".

Definition catch (e : thrown) : list (step setter) :=
  [Call (setError (Value (Some (message_of e))))].

Definition finally : list (step setter) :=
  [Call (setLoading (Value false))].

Definition fetchRecipes (o : outcome Data.t) : list (step setter) :=
  ([Call (setLoading (Value true)); AwaitFetch listing_url]
   ++ match o with
      | Rejected e => catch e
      | Resolved response =>
          if negb (ok response) then
            catch (ErrorObject
                     ("HTTP error! status: "
                      ++ JS.Number_toString (status response)))
          else
            AwaitJson
            :: match json response with
               | inl e => catch e
               | inr data => [Call (setRecipes (Value (Data.recipes data)))]
               end
      end
   ++ finally)%list.

(** *** Pagination, derived on every render *)

Definition indexOfLastRecipe (s : State) : Z :=
  currentPage s * RECIPES_PER_PAGE.

Definition indexOfFirstRecipe (s : State) : Z :=
  indexOfLastRecipe s - RECIPES_PER_PAGE.

Definition currentRecipes (s : State) : list Recipe :=
  JS.slice (recipes s) (indexOfFirstRecipe s) (indexOfLastRecipe s).

Definition totalPages (s : State) : Z :=
  JS.Math_ceil (JS.divide (Z.of_nat (List.length (recipes s))) RECIPES_PER_PAGE).

(** The two page buttons' [onClick]. *)
Definition previous_click : handler setter :=
  [Set_ (setCurrentPage (Updater (fun p => JS.Math_max (p - 1) 1)))].

Definition next_click (s : State) : handler setter :=
  [Set_ (setCurrentPage (Updater (fun p => JS.Math_min (p + 1) (totalPages s))))].

(** *** [App] *)

Definition grid (s : State) : vnode setter :=
  el "div" "recipes-grid"
    (map (fun recipe =>
            keyed (JS.Number_toString (id recipe)) (RecipeCard recipe))
         (currentRecipes s)).

Definition pagination (s : State) : vnode setter :=
  el "div" "pagination"
    [ button [] (currentPage s =? 1) previous_click [Text "Anterior"];
      el' "span" [Text "Página ";
                  Text (JS.Number_toString (currentPage s));
                  Text " de ";
                  Text (JS.Number_toString (totalPages s))];
      button [] (currentPage s =? totalPages s) (next_click s)
             [Text "Próxima"] ].

(** The children of the root [div] of the main view. *)
Definition app_children (s : State) : list (vnode setter) :=
  [ el' "h1" [Text "Receitas Yummy"]; grid s; pagination s ].

Definition App (s : State) : vnode setter :=
  if loading s then
    el "div" "status-message" [Text "Carregando receitas..."]
  else if JS.truthy_opt (error s) then
    el "div" "status-message error"
      [Text "Erro: "; Text (match error s with Some m => m | None => "" end)]
  else
    el "div" "app-container" (app_children s).

(** *** The running component *)

(** The state, and the [fetchRecipes] runs suspended at an [await]. *)
Record System : Type := {
  ui : State;
  inflight : list (list (step setter))
}.

(** Mounting renders the initial state and runs the effect, whose
    dependency list is empty: [fetchRecipes] starts once and never again. *)
Definition mount (o : outcome Data.t) : System :=
  let (us, rest) := advance (fetchRecipes o) in
  {| ui := run us initial; inflight := [rest] |}.

Inductive sys_step : System -> System -> Prop :=
| user_click (y : System) (p : list nat) (us : list setter) :
    click (App (ui y)) p = Some us ->
    sys_step y {| ui := run us (ui y); inflight := inflight y |}
| resume (y : System) (pre post : list (list (step setter)))
         (k : list (step setter)) :
    inflight y = (pre ++ k :: post)%list ->
    sys_step y {| ui := run (fst (advance k)) (ui y);
                  inflight := (pre ++ snd (advance k) :: post)%list |}.

(** The states reachable when the one request settles as [o]. *)
Inductive reachable (o : outcome Data.t) : System -> Prop :=
| reach_mount : reachable o (mount o)
| reach_step (y y' : System) :
    reachable o y -> sys_step y y' -> reachable o y'.

End ClientPaginated.

(** [array.map((x, index) => ...)]. *)
Fixpoint mapi_from {A B : Type} (i : nat) (f : A -> nat -> B) (l : list A)
  : list B :=
  match l with
  | [] => []
  | x :: l' => f x i :: mapi_from (S i) f l'
  end.

Definition mapi {A B : Type} (f : A -> nat -> B) (l : list A) : list B :=
  mapi_from 0 f l.

(** ** The server-paginated variant, with search, sort and the detail overlay *)

Module ServerPaginated.

Record Recipe : Type := {
  id : Z;
  name : string;
  image : string;
  mealType : list string;
  prepTimeMinutes : Z;
  cookTimeMinutes : Z;
  servings : Z;
  caloriesPerServing : Z;
  rating : Q;
  difficulty : string;
  ingredients : list string;
  instructions : list string
}.

(** The body of a listing or search response, as far as it is read. *)
Module Data.
Record t : Type := { recipes : list Recipe; total : Z }.
End Data.

(** The nine [useState] cells of [App]. *)
Record State : Type := {
  recipes : list Recipe;
  loading : bool;
  error : option string;
  currentPage : Z;
  totalPages : Z;
  searchQuery : string;
  sortBy : string;
  sortOrder : string;
  selectedRecipe : option Recipe
}.

Inductive setter : Type :=
| setRecipes (a : SetStateAction (list Recipe))
| setLoading (a : SetStateAction bool)
| setError (a : SetStateAction (option string))
| setCurrentPage (a : SetStateAction Z)
| setTotalPages (a : SetStateAction Z)
| setSearchQuery (a : SetStateAction string)
| setSortBy (a : SetStateAction string)
| setSortOrder (a : SetStateAction string)
| setSelectedRecipe (a : SetStateAction (option Recipe)).

Definition initial : State :=
  {| recipes := []; loading := true; error := None; currentPage := 1;
     totalPages := 0; searchQuery := ""; sortBy := "name";
     sortOrder := "asc"; selectedRecipe := None |}.

Definition apply (u : setter) (s : State) : State :=
  let 'Build_State r l e p t q b o sel := s in
  match u with
  | setRecipes a => Build_State (resolve a r) l e p t q b o sel
  | setLoading a => Build_State r (resolve a l) e p t q b o sel
  | setError a => Build_State r l (resolve a e) p t q b o sel
  | setCurrentPage a => Build_State r l e (resolve a p) t q b o sel
  | setTotalPages a => Build_State r l e p (resolve a t) q b o sel
  | setSearchQuery a => Build_State r l e p t (resolve a q) b o sel
  | setSortBy a => Build_State r l e p t q (resolve a b) o sel
  | setSortOrder a => Build_State r l e p t q b (resolve a o) sel
  | setSelectedRecipe a => Build_State r l e p t q b o (resolve a sel)
  end.

Definition run (us : list setter) (s : State) : State :=
  fold_left (fun acc u => apply u acc) us s.

Definition RECIPES_PER_PAGE : Z := 6.

(** *** [RecipeCard] *)

Definition detail (label : string) (value : list (vnode setter))
  : vnode setter :=
  el' "span" (el' "strong" [Text label] :: Text " " :: value).

(** The children of the card's root [div]. *)
Definition card_body (recipe : Recipe) : list (vnode setter) :=
  [ el "span"
       ("recipe-difficulty-badge difficulty-"
        ++ JS.toLowerCase (difficulty recipe))
       [Text (difficulty recipe)];
    img (image recipe) (name recipe) "recipe-image";
    el "div" "recipe-content"
      [ el "span" "recipe-type" [Text (JS.join ", " (mealType recipe))];
        el "h3" "recipe-name" [Text (name recipe)];
        el "div" "recipe-details"
          [ detail "Preparo:"
              [Text (JS.Number_toString (prepTimeMinutes recipe));
               Text " min"];
            detail "Cozimento:"
              [Text (JS.Number_toString (cookTimeMinutes recipe));
               Text " min"];
            detail "Porções:"
              [Text (JS.Number_toString (servings recipe))];
            detail "Kcal/porção:"
              [Text (JS.Number_toString (caloriesPerServing recipe))] ];
        el "div" "recipe-footer"
          [ el' "span" [Text " "; Text (JS.toFixed (rating recipe) 1);
                        Text " ⭐"] ] ] ].

Definition RecipeCard (recipe : Recipe) (onCardClick : Recipe -> list setter)
  : vnode setter :=
  Element "div" [("className", "recipe-card")] false
    (Some (map Set_ (onCardClick recipe))) None
    (card_body recipe).

(** *** [RecipeDetail], the overlay *)

Definition item (text : string) (index : nat) : vnode setter :=
  keyed (JS.Number_toString (Z.of_nat index)) (el' "li" [Text text]).

Definition close_button (onClose : list setter) : vnode setter :=
  button [("className", "modal-close-button")] false (map Set_ onClose)
         [Text "×"].

(** What the content region shows after its close button. *)
Definition modal_body (recipe : Recipe) : list (vnode setter) :=
  [ img (image recipe) (name recipe) "modal-image";
    el' "h2" [Text (name recipe)];
    el "div" "modal-details-grid"
      [ detail "Dificuldade:" [Text (difficulty recipe)];
        detail "Preparo:"
          [Text (JS.Number_toString (prepTimeMinutes recipe)); Text " min"];
        detail "Cozimento:"
          [Text (JS.Number_toString (cookTimeMinutes recipe)); Text " min"];
        detail "Nota:" [Text (JS.toFixed (rating recipe) 1); Text " ⭐"] ];
    el "div" "modal-section"
      [ el' "h3" [Text "Ingredientes"];
        el' "ul" (mapi item (ingredients recipe)) ];
    el "div" "modal-section"
      [ el' "h3" [Text "Instruções"];
        el' "ol" (mapi item (instructions recipe)) ] ].

Definition modal_content (recipe : Recipe) (onClose : list setter)
  : vnode setter :=
  Element "div" [("className", "modal-content")] false
    (Some [StopPropagation]) None
    (close_button onClose :: modal_body recipe).

Definition RecipeDetail (recipe : Recipe) (onClose : list setter)
  : vnode setter :=
  Element "div" [("className", "modal-overlay")] false
    (Some (map Set_ onClose)) None
    [ modal_content recipe onClose ].

(** *** [fetchRecipes], the effect run when the query changes *)

Definition skip (s : State) : Z := (currentPage s - 1) * RECIPES_PER_PAGE.

Definition url (s : State) : string :=
  if JS.truthy (searchQuery s) then
    "https://dummyjson.com/recipes/search?q=" ++ searchQuery s
    ++ "&limit=" ++ JS.Number_toString RECIPES_PER_PAGE
    ++ "&skip=" ++ JS.Number_toString (skip s)
    ++ "&sortBy=" ++ sortBy s ++ "&order=" ++ sortOrder s
  else
    "https://dummyjson.com/recipes?limit="
    ++ JS.Number_toString RECIPES_PER_PAGE
    ++ "&skip=" ++ JS.Number_toString (skip s)
    ++ "&sortBy=" ++ sortBy s ++ "&order=" ++ sortOrder s.

Definition catch (e : thrown) : list (step setter) :=
  [ Call (setError (Value (Some (message_of e))));
    Call (setRecipes (Value []));
    Call (setTotalPages (Value 0)) ].

Definition finally : list (step setter) :=
  [Call (setLoading (Value false))].

(** [s] is the state of the render whose effect this run is: the run reads
    [currentPage], [searchQuery], [sortBy] and [sortOrder] from it. *)
Definition fetchRecipes (s : State) (o : outcome Data.t) : list (step setter) :=
  ([ Call (setError (Value None));
     Call (setLoading (Value false));
     AwaitFetch (url s) ]
   ++ match o with
      | Rejected e => catch e
      | Resolved response =>
          if negb (ok response) then
            catch (ErrorObject
                     ("HTTP error! status: "
                      ++ JS.Number_toString (status response)))
          else
            AwaitJson
            :: match json response with
               | inl e => catch e
               | inr data =>
                   [ Call (setRecipes (Value (Data.recipes data)));
                     Call (setTotalPages
                             (Value (JS.Math_ceil
                                       (JS.divide (Data.total data)
                                                  RECIPES_PER_PAGE)))) ]
               end
      end
   ++ finally)%list.

(** *** Handlers *)

Definition handleSearchChange (value : string) : handler setter :=
  [ Set_ (setSearchQuery (Value value)); Set_ (setCurrentPage (Value 1)) ].

Definition previous_click : handler setter :=
  [Set_ (setCurrentPage (Updater (fun p => JS.Math_max (p - 1) 1)))].

Definition next_click (s : State) : handler setter :=
  [Set_ (setCurrentPage (Updater (fun p => JS.Math_min (p + 1) (totalPages s))))].

Definition onCardClick (recipe : Recipe) : list setter :=
  [setSelectedRecipe (Value (Some recipe))].

Definition onClose : list setter :=
  [setSelectedRecipe (Value None)].

(** *** [App] *)

(** The imported asset. *)
Definition logo : string := "./assets/icon-receitas.png".

Definition option_ (value label : string) : vnode setter :=
  Element "option" [("value", value)] false None None [Text label].

Definition select (value : string) (onChange : string -> handler setter)
    (options : list (vnode setter)) : vnode setter :=
  Element "select" [("value", value)] false None (Some onChange) options.

Definition controls (s : State) : vnode setter :=
  el "div" "controls-container"
    [ Element "input"
        [ ("type", "text");
          ("placeholder", "Buscar por nome da receita...");
          ("value", searchQuery s);
          ("className", "search-input") ]
        false None (Some handleSearchChange) [];
      el "div" "sort-controls"
        [ select (sortBy s) (fun v => [Set_ (setSortBy (Value v))])
            [ option_ "name" "Nome";
              option_ "rating" "Nota";
              option_ "difficulty" "Dificuldade" ];
          select (sortOrder s) (fun v => [Set_ (setSortOrder (Value v))])
            [ option_ "asc" "Ascendente";
              option_ "desc" "Descendente" ] ] ].

Definition grid (s : State) : vnode setter :=
  el "div" "recipes-grid"
    (if (0 <? Z.of_nat (List.length (recipes s))) then
       map (fun recipe =>
              keyed (JS.Number_toString (id recipe))
                    (RecipeCard recipe onCardClick))
           (recipes s)
     else [el "p" "status-message" [Text "Nenhuma receita encontrada."]]).

Definition pagination (s : State) : vnode setter :=
  el "div" "pagination"
    [ button [] (currentPage s =? 1) previous_click [Text "Anterior"];
      el' "span" [Text "Página ";
                  Text (JS.Number_toString (currentPage s));
                  Text " de ";
                  Text (JS.Number_toString (totalPages s))];
      button [] (currentPage s =? totalPages s) (next_click s)
             [Text "Próxima"] ].

(** The children of the root [div] of the main view. *)
Definition app_children (s : State) : list (vnode setter) :=
  ([ Element "img"
       [ ("src", logo); ("alt", "Logo Receitas Yummy");
         ("className", "app-logo"); ("title", "Receitas Yummy") ]
       false None None [];
     el "h1" "app-title" [Text "Receitas Yummy"];
     controls s;
     grid s ]
   ++ (if 1 <? totalPages s then [pagination s] else [])
   ++ match selectedRecipe s with
      | Some recipe => [RecipeDetail recipe onClose]
      | None => []
      end)%list.

Definition App (s : State) : vnode setter :=
  if loading s then
    el "div" "status-message" [Text "Carregando receitas..."]
  else if JS.truthy_opt (error s) then
    el "div" "status-message error"
      [Text "Erro: "; Text (match error s with Some m => m | None => "" end)]
  else
    el "div" "app-container" (app_children s).

(** *** The running component *)

(** The effect's dependency list [[currentPage, searchQuery, sortBy,
    sortOrder]]: the effect runs again after a render in which one of them
    differs from the previous render. *)
Definition deps_changed (prev next : State) : bool :=
  negb ((currentPage prev =? currentPage next)
        && String.eqb (searchQuery prev) (searchQuery next)
        && String.eqb (sortBy prev) (sortBy next)
        && String.eqb (sortOrder prev) (sortOrder next)).

Record System : Type := {
  ui : State;
  inflight : list (list (step setter))
}.

(** Running the effect: [fetchRecipes] starts, runs up to its first
    [await], and stays suspended there. *)
Definition start_fetch (s : State) (o : outcome Data.t)
    (pending : list (list (step setter))) : System :=
  let (us, rest) := advance (fetchRecipes s o) in
  {| ui := run us s; inflight := (pending ++ [rest])%list |}.

(** After the state went from [prev] to [next]: re-render, and run the
    effect when a dependency changed.  [o] is how that request will
    settle. *)
Definition commit (prev next : State) (o : outcome Data.t)
    (pending : list (list (step setter))) : System :=
  if deps_changed prev next then start_fetch next o pending
  else {| ui := next; inflight := pending |}.

Definition mount (o : outcome Data.t) : System := start_fetch initial o [].

Inductive sys_step : System -> System -> Prop :=
| user_click (y : System) (p : list nat) (us : list setter)
             (o : outcome Data.t) :
    click (App (ui y)) p = Some us ->
    sys_step y (commit (ui y) (run us (ui y)) o (inflight y))
| user_change (y : System) (p : list nat) (value : string)
              (us : list setter) (o : outcome Data.t) :
    change (App (ui y)) p value = Some us ->
    sys_step y (commit (ui y) (run us (ui y)) o (inflight y))
| resume (y : System) (pre post : list (list (step setter)))
         (k : list (step setter)) (o : outcome Data.t) :
    inflight y = (pre ++ k :: post)%list ->
    sys_step y (commit (ui y) (run (fst (advance k)) (ui y)) o
                       (pre ++ snd (advance k) :: post)%list).

Inductive reachable : System -> Prop :=
| reach_mount (o : outcome Data.t) : reachable (mount o)
| reach_step (y y' : System) : reachable y -> sys_step y y' -> reachable y'.

End ServerPaginated.

(** ** Reading a request back *)

(** The setter calls a run makes when its request settles: those between the
    first [await] and the next. *)
Definition on_response {U : Type} (k : list (step U)) : list U :=
  fst (advance (snd (advance k))).

(** The setter calls a run makes when the body of the response is parsed:
    those after the second [await]. *)
Definition on_body {U : Type} (k : list (step U)) : list U :=
  fst (advance (snd (advance (snd (advance k))))).

Definition API_ORIGIN : string := "https://dummyjson.com".

Fixpoint strip_prefix (pre s : string) : option string :=
  match pre, s with
  | EmptyString, _ => Some s
  | String a pre', String b s' =>
      if Ascii.eqb a b then strip_prefix pre' s' else None
  | String _ _, EmptyString => None
  end.

Fixpoint up_to_query (s : string) : string :=
  match s with
  | EmptyString => EmptyString
  | String c rest =>
      if (Ascii.eqb c "?" || Ascii.eqb c "#")%bool then EmptyString
      else String c (up_to_query rest)
  end.

(** The path a URL of the API targets: what follows the origin, up to the
    query string. *)
Definition pathname (u : string) : option string :=
  option_map up_to_query (strip_prefix API_ORIGIN u).

Module SP := ServerPaginated.
Module CP := ClientPaginated.

(** ** Reading the view *)

(** Where the pagination controls and the overlay sit among the children of
    the main view. *)
Definition pagination_index : nat := 4.

Definition overlay_index (s : SP.State) : nat :=
  if 1 <? SP.totalPages s then 5 else 4.

(** The state after a click on the element at path [p] of the view; a click
    that lands on nothing changes nothing. *)
Definition server_clicked (s : SP.State) (p : list nat) : SP.State :=
  match click (SP.App s) p with
  | Some us => SP.run us s
  | None => s
  end.

Definition client_clicked (c : CP.State) (p : list nat) : CP.State :=
  match click (CP.App c) p with
  | Some us => CP.run us c
  | None => c
  end.

(** The texts of the items of a list element, in order. *)
Definition listed (t : vnode SP.setter) : list string :=
  flat_map text_of (children_of t).

(** ** Invariant of the server-paginated variant *)

Definition keeps_page (u : SP.setter) : Prop :=
  forall s, 1 <= SP.currentPage s -> 1 <= SP.currentPage (SP.apply u s).

Definition server_invariant (y : SP.System) : Prop :=
  1 <= SP.currentPage (SP.ui y)
  /\ Forall (fun k => Forall keeps_page (all_calls k)) (SP.inflight y).

(** ** Invariant of the client-paginated variant *)

Definition keeps_recipes (u : CP.setter) : Prop :=
  forall c, CP.recipes (CP.apply u c) = CP.recipes c.

Definition client_still_empty (y : CP.System) : Prop :=
  CP.recipes (CP.ui y) = []
  /\ Forall (fun k => Forall keeps_recipes (all_calls k)) (CP.inflight y).

Definition keeps_page_nonnegative (u : CP.setter) : Prop :=
  forall c, 0 <= CP.currentPage c -> 0 <= CP.currentPage (CP.apply u c).

Definition client_page_invariant (y : CP.System) : Prop :=
  0 <= CP.currentPage (CP.ui y)
  /\ Forall (fun k => Forall keeps_page_nonnegative (all_calls k))
            (CP.inflight y).

(** ** Sample data *)

Definition margherita : SP.Recipe :=
  {| SP.id := 1;
     SP.name := "Classic Margherita Pizza";
     SP.image := "https://cdn.dummyjson.com/recipe-images/1.webp";
     SP.mealType := ["Dinner"];
     SP.prepTimeMinutes := 20;
     SP.cookTimeMinutes := 15;
     SP.servings := 4;
     SP.caloriesPerServing := 300;
     SP.rating := 46 # 10;
     SP.difficulty := "Easy";
     SP.ingredients :=
       ["Pizza dough"; "Tomato sauce"; "Fresh mozzarella cheese"];
     SP.instructions :=
       ["Preheat the oven."; "Roll out the dough."; "Bake for 12 minutes."] |}.

(** Page 2 of 3 of a search for "pizza", loaded. *)
Definition browsing : SP.State :=
  {| SP.recipes := [margherita];
     SP.loading := false;
     SP.error := None;
     SP.currentPage := 2;
     SP.totalPages := 3;
     SP.searchQuery := "pizza";
     SP.sortBy := "name";
     SP.sortOrder := "asc";
     SP.selectedRecipe := None |}.

Definition failed_500 : Response SP.Data.t :=
  {| status := 500; json := inl OtherValue |}.

Definition client_failed_500 : Response CP.Data.t :=
  {| status := 500; json := inl OtherValue |}.

Definition dish (n : Z) : CP.Recipe :=
  {| CP.id := n;
     CP.name := "Dish " ++ JS.Number_toString n;
     CP.image := "https://cdn.dummyjson.com/recipe-images/1.webp";
     CP.mealType := ["Lunch"; "Dinner"];
     CP.prepTimeMinutes := 10;
     CP.cookTimeMinutes := 20;
     CP.servings := 2;
     CP.caloriesPerServing := 250;
     CP.rating := 49 # 10;
     CP.difficulty := "Medium" |}.

(** Thirteen records loaded, the third page displayed. *)
Definition thirteen_on_page_3 : CP.State :=
  {| CP.recipes := map dish [1; 2; 3; 4; 5; 6; 7; 8; 9; 10; 11; 12; 13];
     CP.loading := false;
     CP.error := None;
     CP.currentPage := 3 |}.

(** The same list and page in a render that shows an error. *)
Definition thirteen_failed : CP.State :=
  {| CP.recipes := CP.recipes thirteen_on_page_3;
     CP.loading := true;
     CP.error := Some "HTTP error! status: 500";
     CP.currentPage := 3 |}.

(** The listing request answered with 200 and no record. *)
Definition empty_listing : outcome CP.Data.t :=
  Resolved {| status := 200; json := inr {| CP.Data.recipes := [] |} |}.

(** ** Further readings of the state *)

(** A setter call that leaves the query, which is what the effect depends
    on, and the selection as they are. *)
Definition query_untouched (u : SP.setter) : Prop :=
  forall s,
    SP.currentPage (SP.apply u s) = SP.currentPage s
    /\ SP.searchQuery (SP.apply u s) = SP.searchQuery s
    /\ SP.sortBy (SP.apply u s) = SP.sortBy s
    /\ SP.sortOrder (SP.apply u s) = SP.sortOrder s
    /\ SP.selectedRecipe (SP.apply u s) = SP.selectedRecipe s.

(** No request is in flight: every run has reached its end. *)
Definition server_idle (y : SP.System) : Prop :=
  Forall (fun k => k = []) (SP.inflight y).

(** Page [p] of the list the state holds. *)
Definition client_page (c : CP.State) (p : Z) : list CP.Recipe :=
  CP.currentRecipes (CP.apply (CP.setCurrentPage (Value p)) c).

(** The pages 1 to [t], one after the other. *)
Definition client_pages (c : CP.State) (t : nat) : list (list CP.Recipe) :=
  map (fun i => client_page c (Z.of_nat i + 1)) (seq 0 t).


(** A 200 response whose body does not parse. *)
Definition garbled : Response SP.Data.t :=
  {| status := 200;
     json := inl (ErrorObject "Unexpected token < in JSON at position 0") |}.

(** No request of the client-paginated variant is in flight. *)
Definition client_idle (y : CP.System) : Prop :=
  Forall (fun k => k = []) (CP.inflight y).

(** The view shows a status message, "Carregando receitas..." or the error,
    and nothing else. *)
Definition server_status_view (s : SP.State) : bool :=
  SP.loading s || JS.truthy_opt (SP.error s).

Definition client_status_view (c : CP.State) : bool :=
  CP.loading c || JS.truthy_opt (CP.error c).

(** The search failed with a 500 and the error is displayed. *)
Definition search_failed : SP.State :=
  {| SP.recipes := [];
     SP.loading := false;
     SP.error := Some "HTTP error! status: 500";
     SP.currentPage := 2;
     SP.totalPages := 0;
     SP.searchQuery := "pizza";
     SP.sortBy := "name";
     SP.sortOrder := "asc";
     SP.selectedRecipe := None |}.

(** A setter call that keeps the page within 1..[t] and the total at [t]. *)
Definition keeps_page_in_range (t : Z) (u : SP.setter) : Prop :=
  forall s,
    1 <= SP.currentPage s <= t -> SP.totalPages s = t ->
    1 <= SP.currentPage (SP.apply u s) <= t
    /\ SP.totalPages (SP.apply u s) = t.

(** The state after a change event on the control at path [p]. *)
Definition server_changed (s : SP.State) (p : list nat) (value : string)
  : SP.State :=
  match change (SP.App s) p value with
  | Some us => SP.run us s
  | None => s
  end.

(** ** The page range of the client-paginated variant *)

(** The state between the mount and the end of the request. *)
Definition client_loading_state : CP.State :=
  CP.run (fst (advance (CP.fetchRecipes (Rejected OtherValue)))) CP.initial.

(** What is left of the run after its first and after its second [await]. *)
Definition client_rest1 (o : outcome CP.Data.t) : list (step CP.setter) :=
  snd (advance (CP.fetchRecipes o)).

Definition client_rest2 (o : outcome CP.Data.t) : list (step CP.setter) :=
  snd (advance (client_rest1 o)).

Definition client_page_untouched (u : CP.setter) : Prop :=
  forall c, CP.currentPage (CP.apply u c) = CP.currentPage c.

(** A setter call that keeps the list, and the page within 0..[max 1 t]. *)
Definition keeps_client_range (t : Z) (u : CP.setter) : Prop :=
  forall c,
    CP.recipes (CP.apply u c) = CP.recipes c
    /\ (0 <= CP.currentPage c <= Z.max 1 t ->
        0 <= CP.currentPage (CP.apply u c) <= Z.max 1 t).

Definition client_range_invariant (o : outcome CP.Data.t) (y : CP.System)
  : Prop :=
  (CP.inflight y = [[]]
   /\ 0 <= CP.currentPage (CP.ui y) <= Z.max 1 (CP.totalPages (CP.ui y)))
  \/ (CP.ui y = client_loading_state
      /\ (CP.inflight y = [client_rest1 o] \/ CP.inflight y = [client_rest2 o])).

(** ** Handlers, with what a control can report *)

(** Every setter call a click handler of the tree can make satisfies [Qc],
    and every one an [onChange] can make, given a value its control offers,
    satisfies [Qch]. *)
Fixpoint all_reactions {U : Type} (Qc Qch : U -> Prop) (t : vnode U) : Prop :=
  match t with
  | Text _ => True
  | Element tag attrs d oc och ch =>
      match oc with Some h => Forall Qc (calls h) | None => True end
      /\ match och with
         | Some f =>
             forall value,
               offers (Element tag attrs d oc och ch) value = true ->
               Forall Qch (calls (f value))
         | None => True
         end
      /\ (fix each (l : list (vnode U)) : Prop :=
            match l with
            | [] => True
            | c :: l' => all_reactions Qc Qch c /\ each l'
            end) ch
  end.

Definition each_reacting {U : Type} (Qc Qch : U -> Prop) (l : list (vnode U))
  : Prop :=
  (fix each (l : list (vnode U)) : Prop :=
     match l with
     | [] => True
     | c :: l' => all_reactions Qc Qch c /\ each l'
     end) l.

(** Induction on rendered trees, children included. *)
Fixpoint vnode_induction {U : Type} (P : vnode U -> Prop)
    (HText : forall s, P (Text s))
    (HElement : forall tag attrs d oc och ch,
        Forall P ch -> P (Element tag attrs d oc och ch))
    (t : vnode U) : P t :=
  match t with
  | Text s => HText s
  | Element tag attrs d oc och ch =>
      HElement tag attrs d oc och ch
        ((fix each (l : list (vnode U)) : Forall P l :=
            match l with
            | [] => Forall_nil P
            | c :: l' =>
                Forall_cons c (vnode_induction P HText HElement c) (each l')
            end) ch)
  end.

(** The sort fields and orders the two [select]s list. *)
Definition sort_fields : list string := ["name"; "rating"; "difficulty"].
Definition sort_orders : list string := ["asc"; "desc"].

Definition sorted_by_option (s : SP.State) : Prop :=
  In (SP.sortBy s) sort_fields /\ In (SP.sortOrder s) sort_orders.

Definition keeps_sort_options (u : SP.setter) : Prop :=
  forall s, sorted_by_option s -> sorted_by_option (SP.apply u s).

(** * Properties *)

(** ** Arithmetic and arrays *)

Lemma Math_ceil_divide (a : Z) (b : positive) :
  JS.Math_ceil (JS.divide a (Zpos b)) = - ((- a) / Zpos b).
Proof.
  unfold JS.Math_ceil, JS.divide, Qceiling, Qfloor, Qdiv, Qinv, Qmult, Qopp,
    inject_Z; cbn.
  rewrite Z.mul_1_r. reflexivity.
Qed.

(** [Math.ceil(a / b)] is the least integer [t] with [a <= b * t]. *)
Lemma Math_ceil_divide_spec (a : Z) (b : positive) :
  let t := JS.Math_ceil (JS.divide a (Zpos b)) in
  Zpos b * (t - 1) < a <= Zpos b * t.
Proof.
  cbv zeta. rewrite Math_ceil_divide.
  pose proof (Z.div_mod (- a) (Zpos b) ltac:(lia)) as E.
  pose proof (Z.mod_pos_bound (- a) (Zpos b) ltac:(lia)) as B.
  nia.
Qed.

Lemma slice_forward {A : Type} (l : list A) (a b : Z) :
  0 <= a <= b ->
  JS.slice l a b = firstn (Z.to_nat (b - a)) (skipn (Z.to_nat a) l).
Proof.
  intros H. unfold JS.slice, JS.relative_index.
  destruct (Z.ltb_spec a 0); [lia|].
  destruct (Z.ltb_spec b 0); [lia|].
  set (len := Z.of_nat (List.length l)).
  destruct (Z_le_gt_dec len a) as [Ha|Ha].
  - rewrite (Z.min_r a len), (Z.min_r b len) by lia.
    rewrite !skipn_all2 by lia.
    now rewrite !firstn_nil.
  - rewrite (Z.min_l a len) by lia.
    destruct (Z_le_gt_dec len b) as [Hb|Hb].
    + rewrite (Z.min_r b len) by lia.
      rewrite !firstn_all2; [reflexivity | |]; rewrite length_skipn; lia.
    + now rewrite (Z.min_l b len) by lia.
Qed.

Lemma client_currentRecipes_window (s : CP.State) :
  1 <= CP.currentPage s ->
  CP.currentRecipes s
  = firstn (Z.to_nat CP.RECIPES_PER_PAGE)
           (skipn (Z.to_nat ((CP.currentPage s - 1) * CP.RECIPES_PER_PAGE))
                  (CP.recipes s)).
Proof.
  intros Hp.
  unfold CP.currentRecipes, CP.indexOfFirstRecipe, CP.indexOfLastRecipe,
    CP.RECIPES_PER_PAGE.
  rewrite slice_forward by lia.
  f_equal; [f_equal; lia | f_equal; f_equal; lia].
Qed.

(** On page 0 the indices are [-6] and [0]: the slice is empty. *)
Lemma client_currentRecipes_page_zero (s : CP.State) :
  CP.currentPage s = 0 -> CP.currentRecipes s = [].
Proof.
  intros Hp.
  unfold CP.currentRecipes, CP.indexOfFirstRecipe, CP.indexOfLastRecipe,
    CP.RECIPES_PER_PAGE, JS.slice, JS.relative_index.
  rewrite Hp. cbn [Z.mul Z.sub Z.add Z.opp Z.ltb Z.compare].
  replace (Z.to_nat _) with 0%nat by lia. reflexivity.
Qed.

(** C4. Client-paginated variant: on every page [p] (1 and above, and also
    0) the displayed records are exactly those at the indices from
    [(p-1) * pageSize] up to, but excluding, [(p-1) * pageSize + pageSize] of
    the full result set, in that order, and [totalPages] is the ceiling of
    [n / pageSize] (the least [t] with [n <= pageSize * t]).  With 13 records
    and page size 6 there are 3 pages and page 3 shows one record. *)
Theorem client_page_slice_and_total_pages (s : CP.State) :
  0 <= CP.currentPage s ->
  let n := Z.of_nat (List.length (CP.recipes s)) in
  let first := (CP.currentPage s - 1) * CP.RECIPES_PER_PAGE in
  CP.indexOfFirstRecipe s = first
  /\ CP.indexOfLastRecipe s = first + CP.RECIPES_PER_PAGE
  /\ (forall k : nat,
         nth_error (CP.currentRecipes s) k
         = if Z.of_nat k <? CP.RECIPES_PER_PAGE
           then JS.at_index (CP.recipes s) (first + Z.of_nat k)
           else None)
  /\ CP.RECIPES_PER_PAGE * (CP.totalPages s - 1) < n
       <= CP.RECIPES_PER_PAGE * CP.totalPages s
  /\ (CP.RECIPES_PER_PAGE = 6
      /\ (n = 13 ->
          CP.totalPages s = 3
          /\ (CP.currentPage s = 3 ->
              List.length (CP.currentRecipes s) = 1%nat))).
Proof.
  intros Hp n first.
  assert (Hceil : CP.RECIPES_PER_PAGE * (CP.totalPages s - 1) < n
                  <= CP.RECIPES_PER_PAGE * CP.totalPages s)
    by exact (Math_ceil_divide_spec n 6).
  split; [| split; [| split; [| split; [exact Hceil | split; [reflexivity |]]]]].
  - unfold CP.indexOfFirstRecipe, CP.indexOfLastRecipe, first. lia.
  - unfold CP.indexOfLastRecipe, first, CP.RECIPES_PER_PAGE. lia.
  - intros k. unfold JS.at_index, first, CP.RECIPES_PER_PAGE.
    destruct (Z.eq_dec (CP.currentPage s) 0) as [H0|H0].
    + rewrite client_currentRecipes_page_zero by exact H0. rewrite H0.
      rewrite nth_error_nil.
      destruct (Z.ltb_spec (Z.of_nat k) 6); [|reflexivity].
      destruct (Z.ltb_spec ((0 - 1) * 6 + Z.of_nat k) 0); [reflexivity | lia].
    + rewrite client_currentRecipes_window by lia.
      rewrite nth_error_firstn, nth_error_skipn.
      unfold CP.RECIPES_PER_PAGE.
      destruct (Nat.ltb_spec k (Z.to_nat 6));
        destruct (Z.ltb_spec (Z.of_nat k) 6); try lia; [|reflexivity].
      destruct (Z.ltb_spec ((CP.currentPage s - 1) * 6 + Z.of_nat k) 0);
        [lia|].
      f_equal. lia.
  - intros Hn. unfold CP.RECIPES_PER_PAGE in Hceil. split; [lia|].
    intros H3. rewrite client_currentRecipes_window by lia.
    rewrite length_firstn, length_skipn, H3.
    unfold CP.RECIPES_PER_PAGE. subst n. lia.
Qed.

(** The server-paginated variant takes the same ceiling of the total the
    response reports: 13 records make 3 pages. *)
Lemma server_total_pages_is_ceiling
    (q s1 : SP.State) (r : Response SP.Data.t) (data : SP.Data.t) :
  ok r = true ->
  json r = inr data ->
  let s' := SP.run (on_body (SP.fetchRecipes q (Resolved r))) s1 in
  SP.recipes s' = SP.Data.recipes data
  /\ SP.RECIPES_PER_PAGE * (SP.totalPages s' - 1) < SP.Data.total data
       <= SP.RECIPES_PER_PAGE * SP.totalPages s'
  /\ (SP.Data.total data = 13 -> SP.totalPages s' = 3).
Proof.
  intros Hok Hjson s'.
  assert (Hs : SP.recipes s' = SP.Data.recipes data
               /\ SP.totalPages s'
                  = JS.Math_ceil (JS.divide (SP.Data.total data) 6)).
  { subst s'. unfold on_body, SP.fetchRecipes. rewrite Hok, Hjson.
    destruct s1; split; reflexivity. }
  destruct Hs as [Hrec Htot].
  pose proof (Math_ceil_divide_spec (SP.Data.total data) 6) as Hceil.
  cbv zeta in Hceil. rewrite <- Htot in Hceil.
  split; [exact Hrec|]. split; [exact Hceil|].
  unfold SP.RECIPES_PER_PAGE in *. lia.
Qed.

(** ** Event dispatch *)

Section Dispatch.

Context {U : Type}.

Lemma bubble_silent_prefix (quiet : list (handler U)) (hs : list (handler U)) :
  Forall (fun h => h = []) quiet -> bubble (quiet ++ hs) = bubble hs.
Proof.
  induction 1 as [|h quiet Hh _ IH]; [reflexivity|].
  subst h. cbn. exact IH.
Qed.

Lemma bubble_silent_root (hs : list (handler U)) :
  bubble (hs ++ [[]]) = bubble hs.
Proof.
  induction hs as [|h hs IH]; [reflexivity|].
  cbn. rewrite IH. reflexivity.
Qed.

(** A click below an element that has no [onClick] and is not disabled is
    the click in the child. *)
Lemma click_through (tag : string) (attrs : list (string * string))
    (och : option (string -> handler U)) (ch : list (vnode U))
    (i : nat) (c : vnode U) (p : list nat) :
  nth_error ch i = Some c ->
  click (Element tag attrs false None och ch) (i :: p) = click c p.
Proof.
  intros Hc. unfold click. cbn [propagation_path children_of]. rewrite Hc.
  destruct (propagation_path p c) as [path|]; [|reflexivity].
  rewrite existsb_app, map_app. cbn [existsb is_disabled map own_click].
  rewrite !orb_false_r, bubble_silent_root. reflexivity.
Qed.

(** In an inert tree every element on a propagation path is enabled and has
    no click handler. *)
Lemma inert_path (p : list nat) :
  forall (t : vnode U) (path : list (vnode U)),
    inert t = true ->
    propagation_path p t = Some path ->
    Forall (fun n => is_disabled n = false /\ own_click n = []) path.
Proof.
  induction p as [|i p IH]; intros t path Ht Hp.
  - cbn in Hp. destruct t as [s|tag attrs d oc och ch]; [discriminate|].
    cbn in Hp. injection Hp as <-.
    cbn in Ht. destruct d; [discriminate|]. destruct oc; [discriminate|].
    repeat constructor.
  - cbn in Hp. destruct t as [s|tag attrs d oc och ch].
    + cbn in Hp. destruct i; discriminate.
    + cbn in Hp, Ht.
      destruct d; [discriminate|]. destruct oc; [discriminate|].
      destruct och; [discriminate|].
      cbn in Ht.
      destruct (nth_error ch i) as [c|] eqn:Hc; [|discriminate].
      destruct (propagation_path p c) as [below|] eqn:Hb; [|discriminate].
      injection Hp as <-.
      apply Forall_app. split.
      * apply (IH c); [|exact Hb].
        rewrite forallb_forall in Ht. apply Ht.
        eapply nth_error_In; eassumption.
      * repeat constructor.
Qed.

Lemma inert_path_enabled (path : list (vnode U)) :
  Forall (fun n => is_disabled n = false /\ own_click n = []) path ->
  existsb is_disabled path = false
  /\ Forall (fun h => h = []) (map own_click path).
Proof.
  induction 1 as [|n path [Hd Hc] _ [IH1 IH2]]; [split; constructor|].
  cbn. rewrite Hd, IH1. split; [reflexivity|]. constructor; assumption.
Qed.

(** A click anywhere inside an enabled element whose children are inert runs
    that element's own handler, and then whatever the ancestors' handlers
    [above] do. *)
Lemma propagation_below (tag : string) (attrs : list (string * string))
    (oc : option (handler U)) (och : option (string -> handler U))
    (ch : list (vnode U)) (p : list nat) (path : list (vnode U)) :
  forallb inert ch = true ->
  propagation_path p (Element tag attrs false oc och ch) = Some path ->
  exists below,
    path = (below ++ [Element tag attrs false oc och ch])%list
    /\ existsb is_disabled below = false
    /\ Forall (fun h => h = []) (map own_click below).
Proof.
  intros Hch Hp. destruct p as [|i p].
  - cbn in Hp. injection Hp as <-. exists []. repeat split; constructor.
  - cbn in Hp.
    destruct (nth_error ch i) as [c|] eqn:Hc; [|discriminate].
    destruct (propagation_path p c) as [below|] eqn:Hb; [|discriminate].
    injection Hp as <-. exists below. split; [reflexivity|].
    apply inert_path_enabled. apply (inert_path p c); [|exact Hb].
    rewrite forallb_forall in Hch. apply Hch.
    eapply nth_error_In; eassumption.
Qed.

End Dispatch.

Section Handlers.

Context {U : Type} (Q : U -> Prop).

Lemma all_handlers_element (tag : string) (attrs : list (string * string))
    (d : bool) (oc : option (handler U)) (och : option (string -> handler U))
    (ch : list (vnode U)) :
  all_handlers Q (Element tag attrs d oc och ch)
  <-> (match oc with Some h => Forall Q (calls h) | None => True end
       /\ match och with
          | Some f => forall value, Forall Q (calls (f value))
          | None => True
          end
       /\ each_child Q ch).
Proof. reflexivity. Qed.

Lemma each_child_Forall (l : list (vnode U)) :
  each_child Q l <-> Forall (all_handlers Q) l.
Proof.
  induction l as [|c l IH]; cbn.
  - split; constructor.
  - fold (each_child Q l). rewrite IH. split.
    + intros [Hc Hl]. constructor; assumption.
    + intros H. inversion H; subst. split; assumption.
Qed.

Lemma each_child_app (l1 l2 : list (vnode U)) :
  each_child Q (l1 ++ l2) <-> each_child Q l1 /\ each_child Q l2.
Proof. rewrite !each_child_Forall. apply Forall_app. Qed.

Lemma all_handlers_child (t : vnode U) (i : nat) (c : vnode U) :
  all_handlers Q t -> nth_error (children_of t) i = Some c -> all_handlers Q c.
Proof.
  destruct t as [s|tag attrs d oc och ch]; cbn [children_of].
  - destruct i; discriminate.
  - intros H Hc.
    pose proof (proj1 (all_handlers_element _ _ _ _ _ _) H) as (_ & _ & H').
    pose proof (proj1 (each_child_Forall _) H') as HF.
    rewrite Forall_forall in HF.
    apply HF. eapply nth_error_In; eassumption.
Qed.

Lemma all_handlers_node_at (p : list nat) :
  forall (t target : vnode U),
    all_handlers Q t -> node_at p t = Some target -> all_handlers Q target.
Proof.
  induction p as [|i p IH]; intros t target Ht Hp; cbn in Hp.
  - injection Hp as <-. exact Ht.
  - destruct (nth_error (children_of t) i) as [c|] eqn:Hc; [|discriminate].
    apply (IH c); [|exact Hp]. eapply all_handlers_child; eassumption.
Qed.

Lemma all_handlers_own_click (t : vnode U) :
  all_handlers Q t -> Forall Q (calls (own_click t)).
Proof.
  destruct t as [s|tag attrs d [h|] och ch]; cbn; try constructor.
  intros (H & _). exact H.
Qed.

Lemma all_handlers_own_change (t : vnode U) (value : string) :
  all_handlers Q t -> Forall Q (calls (own_change t value)).
Proof.
  destruct t as [s|tag attrs d oc [f|] ch]; cbn; try constructor.
  intros (_ & H & _). apply H.
Qed.

Lemma all_handlers_path (p : list nat) :
  forall (t : vnode U) (path : list (vnode U)),
    all_handlers Q t ->
    propagation_path p t = Some path ->
    Forall (all_handlers Q) path.
Proof.
  induction p as [|i p IH]; intros t path Ht Hp; cbn in Hp.
  - destruct (is_element t); [|discriminate]. injection Hp as <-.
    constructor; [exact Ht | constructor].
  - destruct (nth_error (children_of t) i) as [c|] eqn:Hc; [|discriminate].
    destruct (propagation_path p c) as [below|] eqn:Hb; [|discriminate].
    injection Hp as <-. apply Forall_app. split.
    + apply (IH c); [|exact Hb]. eapply all_handlers_child; eassumption.
    + constructor; [exact Ht | constructor].
Qed.

Lemma bubble_Forall (hs : list (handler U)) :
  Forall (fun h => Forall Q (calls h)) hs -> Forall Q (bubble hs).
Proof.
  induction 1 as [|h hs Hh _ IH]; cbn; [constructor|].
  apply Forall_app. split; [exact Hh|].
  destruct (stops h); [constructor | exact IH].
Qed.

(** Whatever a click does, it does through the handlers of the tree. *)
Lemma click_all_handlers (t : vnode U) (p : list nat) (us : list U) :
  all_handlers Q t -> click t p = Some us -> Forall Q us.
Proof.
  intros Ht. unfold click.
  destruct (propagation_path p t) as [path|] eqn:Hp; [|discriminate].
  destruct (existsb is_disabled path).
  - intros [= <-]. constructor.
  - intros [= <-]. apply bubble_Forall.
    apply Forall_map.
    eapply Forall_impl; [|eapply all_handlers_path; eassumption].
    intros n. apply all_handlers_own_click.
Qed.

Lemma change_all_handlers (t : vnode U) (p : list nat) (value : string)
    (us : list U) :
  all_handlers Q t -> change t p value = Some us -> Forall Q us.
Proof.
  intros Ht. unfold change.
  destruct (node_at p t) as [target|] eqn:Hp; [|discriminate].
  destruct (is_element target && offers target value); [|discriminate].
  destruct (is_disabled target).
  - intros [= <-]. constructor.
  - intros [= <-]. apply all_handlers_own_change.
    eapply all_handlers_node_at; eassumption.
Qed.

End Handlers.

(** ** Suspended runs *)

Section Suspended.

Context {U : Type} (Q : U -> Prop).

Lemma advance_calls (k : list (step U)) :
  Forall Q (all_calls k) ->
  Forall Q (fst (advance k)) /\ Forall Q (all_calls (snd (advance k))).
Proof.
  induction k as [|st k IH]; cbn.
  - intros _. split; constructor.
  - destruct st as [u| url |]; cbn.
    + intros H. inversion H as [|? ? Hu Hk]; subst.
      destruct (advance k) as [us rest]. cbn in *.
      destruct (IH Hk) as [IH1 IH2]. split; [constructor|]; assumption.
    + intros H. split; [constructor | exact H].
    + intros H. split; [constructor | exact H].
Qed.

End Suspended.

(** ** The server-paginated variant: the page number never drops below 1 *)

Lemma server_run_keeps_page (us : list SP.setter) :
  Forall keeps_page us ->
  forall s, 1 <= SP.currentPage s -> 1 <= SP.currentPage (SP.run us s).
Proof.
  induction 1 as [|u us Hu _ IH]; intros s Hs; [exact Hs|].
  cbn. apply IH. apply Hu. exact Hs.
Qed.

Lemma server_fetch_keeps_page (s : SP.State) (o : outcome SP.Data.t) :
  Forall keeps_page (all_calls (SP.fetchRecipes s o)).
Proof.
  assert (Hcatch : forall e, Forall keeps_page
                     (all_calls (SP.catch e ++ SP.finally))).
  { intros e. cbn. repeat constructor; intros [] ?; assumption. }
  unfold SP.fetchRecipes. cbn [app all_calls flat_map].
  constructor; [intros [] ?; assumption|].
  constructor; [intros [] ?; assumption|].
  destruct o as [e|response]; [apply Hcatch|].
  destruct (negb (ok response)); [apply Hcatch|].
  cbn [app all_calls flat_map].
  destruct (json response) as [e|data]; [apply Hcatch|].
  cbn. repeat constructor; intros [] ?; assumption.
Qed.

Lemma items_have_no_handlers (Q : SP.setter -> Prop) (l : list string) :
  each_child Q (mapi SP.item l).
Proof.
  unfold mapi. generalize 0%nat.
  induction l as [|x l IH]; intros i; cbn; [exact I|].
  split; [repeat split | apply IH].
Qed.

Lemma detail_handlers (Q : SP.setter -> Prop) (recipe : SP.Recipe) :
  Forall Q SP.onClose -> all_handlers Q (SP.RecipeDetail recipe SP.onClose).
Proof.
  intros H.
  assert (Hc : Forall Q (calls (map Set_ SP.onClose))) by exact H.
  pose proof (items_have_no_handlers Q (SP.ingredients recipe)) as Hi.
  pose proof (items_have_no_handlers Q (SP.instructions recipe)) as Hj.
  unfold each_child in Hi, Hj.
  cbn. repeat split; try assumption; constructor.
Qed.

Lemma card_handlers (Q : SP.setter -> Prop) (recipe : SP.Recipe) (k : string) :
  Forall Q (SP.onCardClick recipe) ->
  all_handlers Q (keyed k (SP.RecipeCard recipe SP.onCardClick)).
Proof.
  intros H.
  assert (Hc : Forall Q (calls (map Set_ (SP.onCardClick recipe)))) by exact H.
  cbn. repeat split; assumption.
Qed.

Lemma server_grid_handlers (Q : SP.setter -> Prop) (s : SP.State) :
  (forall recipe, Forall Q (SP.onCardClick recipe)) ->
  all_handlers Q (SP.grid s).
Proof.
  intros H. unfold SP.grid, el. apply all_handlers_element.
  split; [exact I | split; [exact I|]].
  destruct (0 <? Z.of_nat (List.length (SP.recipes s))).
  - apply each_child_Forall. apply Forall_map.
    apply Forall_forall. intros recipe _. apply card_handlers, H.
  - cbn. repeat split.
Qed.

(** The handlers of the main view, by the control they belong to. *)
Lemma server_app_handlers (Q : SP.setter -> Prop) (s : SP.State) :
  (forall value, Forall Q (calls (SP.handleSearchChange value))) ->
  (forall value, Q (SP.setSortBy (Value value))) ->
  (forall value, Q (SP.setSortOrder (Value value))) ->
  (forall recipe, Forall Q (SP.onCardClick recipe)) ->
  Forall Q SP.onClose ->
  (1 < SP.totalPages s ->
   Forall Q (calls SP.previous_click) /\ Forall Q (calls (SP.next_click s))) ->
  all_handlers Q (SP.App s).
Proof.
  intros Hsearch Hby Horder Hcard Hclose Hpages. unfold SP.App.
  destruct (SP.loading s); [cbn; repeat split|].
  destruct (JS.truthy_opt (SP.error s)); [cbn; repeat split|].
  unfold el. apply all_handlers_element.
  split; [exact I | split; [exact I|]].
  unfold SP.app_children.
  change (each_child Q
            ([Element "img"
                [("src", SP.logo); ("alt", "Logo Receitas Yummy");
                 ("className", "app-logo"); ("title", "Receitas Yummy")]
                false None None [];
              el "h1" "app-title" [Text "Receitas Yummy"];
              SP.controls s; SP.grid s]
             ++ ((if 1 <? SP.totalPages s then [SP.pagination s] else [])
                 ++ match SP.selectedRecipe s with
                    | Some recipe => [SP.RecipeDetail recipe SP.onClose]
                    | None => []
                    end))).
  rewrite !each_child_app. split; [|split].
  - split; [repeat split|]. split; [repeat split|]. split.
    + cbn. repeat split; try exact I.
      * apply Hsearch.
      * intros value. constructor; [apply Hby | constructor].
      * intros value. constructor; [apply Horder | constructor].
    + split; [apply server_grid_handlers, Hcard | exact I].
  - destruct (Z.ltb_spec 1 (SP.totalPages s)) as [Hlt|_]; [|exact I].
    destruct (Hpages Hlt) as [Hprev Hnext].
    cbn. repeat split; assumption.
  - destruct (SP.selectedRecipe s) as [recipe|]; [|exact I].
    split; [apply detail_handlers, Hclose | exact I].
Qed.

Lemma server_app_keeps_page (s : SP.State) :
  all_handlers keeps_page (SP.App s).
Proof.
  apply server_app_handlers.
  - intros value. cbn. repeat constructor; intros [] ?; cbn in *; lia.
  - intros value [] ?; assumption.
  - intros value [] ?; assumption.
  - intros recipe. repeat constructor. intros [] ?; assumption.
  - repeat constructor. intros [] ?; assumption.
  - intros Hlt. split; repeat constructor; intros [] ?; cbn in *;
      unfold JS.Math_max, JS.Math_min; lia.
Qed.

Lemma server_start_fetch_invariant (s : SP.State) (o : outcome SP.Data.t)
    (pending : list (list (step SP.setter))) :
  1 <= SP.currentPage s ->
  Forall (fun k => Forall keeps_page (all_calls k)) pending ->
  server_invariant (SP.start_fetch s o pending).
Proof.
  intros Hs Hp. unfold SP.start_fetch.
  destruct (advance_calls keeps_page _ (server_fetch_keeps_page s o)) as [H1 H2].
  destruct (advance (SP.fetchRecipes s o)) as [us rest]. cbn in *.
  split; cbn.
  - apply server_run_keeps_page; assumption.
  - apply Forall_app. split; [exact Hp | constructor; [exact H2 | constructor]].
Qed.

Lemma server_commit_invariant (prev next : SP.State) (o : outcome SP.Data.t)
    (pending : list (list (step SP.setter))) :
  1 <= SP.currentPage next ->
  Forall (fun k => Forall keeps_page (all_calls k)) pending ->
  server_invariant (SP.commit prev next o pending).
Proof.
  intros Hs Hp. unfold SP.commit. destruct (SP.deps_changed prev next).
  - apply server_start_fetch_invariant; assumption.
  - split; assumption.
Qed.

(** X1. In the server-paginated variant the page number is at least 1 in every
    reachable state: after any clicks, search and sort changes, and however
    the requests settle. *)
Lemma server_page_at_least_one (y : SP.System) :
  SP.reachable y -> 1 <= SP.currentPage (SP.ui y).
Proof.
  intros Hy. enough (server_invariant y) as [H _] by exact H.
  induction Hy as [o | y y' _ IH Hstep].
  - apply server_start_fetch_invariant; [cbn; lia | constructor].
  - destruct IH as [Hpage Hflight].
    destruct Hstep as [y p us o Hclick | y p value us o Hchange
                      | y pre post k o Hk].
    + apply server_commit_invariant; [|exact Hflight].
      apply server_run_keeps_page; [|exact Hpage].
      eapply click_all_handlers; [apply server_app_keeps_page | exact Hclick].
    + apply server_commit_invariant; [|exact Hflight].
      apply server_run_keeps_page; [|exact Hpage].
      eapply change_all_handlers; [apply server_app_keeps_page | exact Hchange].
    + rewrite Hk in Hflight. apply Forall_app in Hflight.
      destruct Hflight as [Hpre Hrest].
      inversion Hrest as [|? ? Hkq Hpost]; subst.
      destruct (advance_calls keeps_page k Hkq) as [H1 H2].
      apply server_commit_invariant.
      * apply server_run_keeps_page; assumption.
      * apply Forall_app. split; [exact Hpre | constructor; assumption].
Qed.

(** ** Strings *)

Lemma prefix_self (s : string) : String.prefix s s = true.
Proof.
  induction s as [|c s IH]; [reflexivity|].
  cbn. destruct (ascii_dec c c); [exact IH | congruence].
Qed.

Lemma includes_suffix (a b : string) : JS.includes (a ++ b) b = true.
Proof.
  induction a as [|c a IH].
  - destruct b as [|c b]; [reflexivity|].
    cbn [append JS.includes]. rewrite prefix_self. reflexivity.
  - cbn [append JS.includes]. rewrite IH. apply orb_true_r.
Qed.

(** ** The start of a fetch *)

(** C1, server-paginated variant. Before the request is issued the run clears
    the error and sets the loading flag to [false] (not to [true]): whatever
    the state was, the flag is [false] while the request is in flight, from
    the mount on. *)
Theorem server_fetch_start_sets_loading_false
    (q s0 : SP.State) (o : outcome SP.Data.t) :
  before_request (SP.fetchRecipes q o)
  = [SP.setError (Value None); SP.setLoading (Value false)]
  /\ requested (SP.fetchRecipes q o) = Some (SP.url q)
  /\ SP.error (SP.run (before_request (SP.fetchRecipes q o)) s0) = None
  /\ SP.loading (SP.run (before_request (SP.fetchRecipes q o)) s0) = false
  /\ SP.loading SP.initial = true
  /\ SP.loading (SP.ui (SP.mount o)) = false.
Proof.
  repeat split; destruct s0; reflexivity.
Qed.

(** The client-paginated variant does set the flag: its run calls
    [setLoading(true)] before the request, and on mount, the only time it
    runs, no error is recorded yet. *)
Lemma client_fetch_start_sets_loading (o : outcome CP.Data.t) (c0 : CP.State) :
  before_request (CP.fetchRecipes o) = [CP.setLoading (Value true)]
  /\ CP.loading (CP.run (before_request (CP.fetchRecipes o)) c0) = true
  /\ CP.loading (CP.ui (CP.mount o)) = true
  /\ CP.error (CP.ui (CP.mount o)) = None.
Proof.
  repeat split; reflexivity.
Qed.

(** ** The client-paginated variant: only a successful response fills the list *)

Lemma client_run_keeps_recipes (us : list CP.setter) :
  Forall keeps_recipes us ->
  forall c, CP.recipes (CP.run us c) = CP.recipes c.
Proof.
  induction 1 as [|u us Hu _ IH]; intros c; [reflexivity|].
  cbn. rewrite IH. apply Hu.
Qed.

(** The handlers of the client-paginated view are those of its two page
    buttons. *)
Lemma client_app_handlers (Q : CP.setter -> Prop) (c : CP.State) :
  Forall Q (calls CP.previous_click) ->
  Forall Q (calls (CP.next_click c)) ->
  all_handlers Q (CP.App c).
Proof.
  intros Hprev Hnext. unfold CP.App.
  destruct (CP.loading c); [cbn; repeat split|].
  destruct (JS.truthy_opt (CP.error c)); [cbn; repeat split|].
  unfold el. apply all_handlers_element.
  split; [exact I | split; [exact I|]].
  apply each_child_Forall. unfold CP.app_children.
  constructor; [cbn; repeat split|]. constructor; [|constructor; [|constructor]].
  - unfold CP.grid, el. apply all_handlers_element.
    split; [exact I | split; [exact I|]].
    apply each_child_Forall, Forall_map, Forall_forall.
    intros recipe _. cbn. repeat split.
  - cbn. repeat split; assumption.
Qed.

Lemma client_app_keeps_recipes (c : CP.State) :
  all_handlers keeps_recipes (CP.App c).
Proof.
  apply client_app_handlers; repeat constructor; intros []; reflexivity.
Qed.

Lemma client_total_pages_nonnegative (c : CP.State) : 0 <= CP.totalPages c.
Proof.
  pose proof (Math_ceil_divide_spec
                (Z.of_nat (List.length (CP.recipes c))) 6) as H.
  cbv zeta in H. unfold CP.totalPages, CP.RECIPES_PER_PAGE. lia.
Qed.

Lemma client_run_keeps_page (us : list CP.setter) :
  Forall keeps_page_nonnegative us ->
  forall c, 0 <= CP.currentPage c -> 0 <= CP.currentPage (CP.run us c).
Proof.
  induction 1 as [|u us Hu _ IH]; intros c Hc; [exact Hc|].
  cbn. apply IH, Hu, Hc.
Qed.

Lemma client_fetch_keeps_page (o : outcome CP.Data.t) :
  Forall keeps_page_nonnegative (all_calls (CP.fetchRecipes o)).
Proof.
  assert (Hcatch : forall e, Forall keeps_page_nonnegative
                     (all_calls (CP.catch e ++ CP.finally))).
  { intros e. cbn. repeat constructor; intros [] ?; assumption. }
  unfold CP.fetchRecipes. cbn [app all_calls flat_map].
  constructor; [intros [] ?; assumption|].
  destruct o as [e|response]; [apply Hcatch|].
  destruct (negb (ok response)); [apply Hcatch|].
  cbn [app all_calls flat_map].
  destruct (json response) as [e|data]; [apply Hcatch|].
  cbn. repeat constructor; intros [] ?; assumption.
Qed.

(** In the client-paginated variant the page number is never negative: it is
    1 or more, or 0. *)
Lemma client_page_never_negative (o : outcome CP.Data.t) (y : CP.System) :
  CP.reachable o y -> 0 <= CP.currentPage (CP.ui y).
Proof.
  intros Hy. enough (client_page_invariant y) as [H _] by exact H.
  induction Hy as [| y y' _ IH Hstep].
  - unfold CP.mount.
    destruct (advance_calls keeps_page_nonnegative _
                (client_fetch_keeps_page o)) as [H1 H2].
    destruct (advance (CP.fetchRecipes o)) as [us rest]. cbn in *.
    split; cbn.
    + apply client_run_keeps_page; [exact H1 | cbn; lia].
    + constructor; [exact H2 | constructor].
  - destruct IH as [Hpage Hflight].
    destruct Hstep as [y p us Hclick | y pre post k Hk].
    + split; [|exact Hflight]. cbn.
      apply client_run_keeps_page; [|exact Hpage].
      eapply click_all_handlers; [|exact Hclick].
      pose proof (client_total_pages_nonnegative (CP.ui y)) as Ht.
      apply client_app_handlers; repeat constructor; intros c Hc;
        cbn [CP.apply CP.currentPage resolve];
        unfold JS.Math_max, JS.Math_min; lia.
    + rewrite Hk in Hflight. apply Forall_app in Hflight.
      destruct Hflight as [Hpre Hrest].
      inversion Hrest as [|? ? Hkq Hpost]; subst.
      destruct (advance_calls keeps_page_nonnegative k Hkq) as [H1 H2].
      split; cbn.
      * apply client_run_keeps_page; assumption.
      * apply Forall_app. split; [exact Hpre | constructor; assumption].
Qed.

(** When the request fails with a non-2xx status the list is empty in every
    reachable state: no call of the run, and no handler, writes it. *)
Lemma client_failure_keeps_list_empty
    (rc : Response CP.Data.t) (y : CP.System) :
  ok rc = false ->
  CP.reachable (Resolved rc) y ->
  client_still_empty y.
Proof.
  intros Hrc Hy. induction Hy as [| y y' _ IH Hstep].
  - unfold CP.mount, CP.fetchRecipes. rewrite Hrc. cbn.
    split; [reflexivity|]. repeat constructor; intros []; reflexivity.
  - destruct IH as [Hempty Hflight].
    destruct Hstep as [y p us Hclick | y pre post k Hk].
    + split; [|exact Hflight]. cbn.
      rewrite client_run_keeps_recipes; [exact Hempty|].
      eapply click_all_handlers;
        [apply client_app_keeps_recipes | exact Hclick].
    + rewrite Hk in Hflight. apply Forall_app in Hflight.
      destruct Hflight as [Hpre Hrest].
      inversion Hrest as [|? ? Hkq Hpost]; subst.
      destruct (advance_calls keeps_recipes k Hkq) as [H1 H2].
      split; cbn.
      * rewrite client_run_keeps_recipes; assumption.
      * apply Forall_app. split; [exact Hpre | constructor; assumption].
Qed.

(** ** A failed request *)

(** C3. When the response has a non-2xx status, the calls made on its arrival
    leave, whatever the state was, an error message that carries the status
    code in decimal, an empty recipe list and zero total pages, with the
    loading flag off and the query and the selection as they were.  In the
    client-paginated variant the message is the same, and in whatever state
    the response arrives the list, which only a successful response fills,
    is empty afterwards, so the derived total is zero. *)
Theorem http_failure_replaces_result_state
    (q s1 : SP.State) (r : Response SP.Data.t)
    (y : CP.System) (rc : Response CP.Data.t) :
  ok r = false ->
  ok rc = false ->
  CP.reachable (Resolved rc) y ->
  let message := "HTTP error! status: " ++ JS.Number_toString (status r) in
  let s' := SP.run (on_response (SP.fetchRecipes q (Resolved r))) s1 in
  let c' := CP.run (on_response (CP.fetchRecipes (Resolved rc))) (CP.ui y) in
  (SP.error s' = Some message
   /\ JS.includes message (JS.Number_toString (status r)) = true
   /\ SP.recipes s' = []
   /\ SP.totalPages s' = 0
   /\ SP.loading s' = false
   /\ SP.currentPage s' = SP.currentPage s1
   /\ SP.searchQuery s' = SP.searchQuery s1
   /\ SP.sortBy s' = SP.sortBy s1
   /\ SP.sortOrder s' = SP.sortOrder s1
   /\ SP.selectedRecipe s' = SP.selectedRecipe s1)
  /\ (CP.error c'
      = Some ("HTTP error! status: " ++ JS.Number_toString (status rc))
      /\ JS.includes ("HTTP error! status: " ++ JS.Number_toString (status rc))
                     (JS.Number_toString (status rc)) = true
      /\ CP.recipes c' = []
      /\ CP.totalPages c' = 0
      /\ CP.loading c' = false).
Proof.
  intros Hr Hrc Hy message s' c'.
  destruct (client_failure_keeps_list_empty rc y Hrc Hy) as [Hc1 _].
  assert (Hs : s' = SP.Build_State [] false (Some message) (SP.currentPage s1) 0
                      (SP.searchQuery s1) (SP.sortBy s1) (SP.sortOrder s1)
                      (SP.selectedRecipe s1)).
  { subst s' message. unfold on_response, SP.fetchRecipes.
    rewrite Hr. destruct s1; reflexivity. }
  assert (Hc : c' = CP.Build_State [] false
                      (Some ("HTTP error! status: "
                             ++ JS.Number_toString (status rc)))
                      (CP.currentPage (CP.ui y))).
  { subst c'. unfold on_response, CP.fetchRecipes.
    rewrite Hrc. destruct (CP.ui y); cbn in Hc1; subst; reflexivity. }
  rewrite Hs, Hc. unfold message.
  repeat split; apply (includes_suffix "HTTP error! status: ").
Qed.

(** ** The search box *)

(** C5. Whatever the page and whatever the new text, the empty one included,
    [handleSearchChange] leaves the page at 1 and the text as typed; and it
    is the [onChange] of the search input of the main view. *)
Theorem search_change_resets_page (s : SP.State) (value : string) :
  let s' := SP.run (calls (SP.handleSearchChange value)) s in
  SP.currentPage s' = 1
  /\ SP.searchQuery s' = value
  /\ (SP.loading s = false -> JS.truthy_opt (SP.error s) = false ->
      change (SP.App s) [2; 0]%nat value
      = Some (calls (SP.handleSearchChange value))).
Proof.
  cbv zeta. split; [destruct s; reflexivity|].
  split; [destruct s; reflexivity|].
  intros Hl He. unfold SP.App. rewrite Hl, He. reflexivity.
Qed.

(** ** The request URL *)

(** C7. The run requests [url]: the search path [/recipes/search] with the
    text as [q] exactly when the search text is not empty, the listing path
    [/recipes] otherwise; either way followed by the limit 6, the skip
    [(page - 1) * 6], the sort field and the sort order. *)
Theorem request_url_follows_search_text
    (s : SP.State) (o : outcome SP.Data.t) :
  let params :=
    "limit=" ++ JS.Number_toString SP.RECIPES_PER_PAGE
    ++ "&skip="
    ++ JS.Number_toString ((SP.currentPage s - 1) * SP.RECIPES_PER_PAGE)
    ++ "&sortBy=" ++ SP.sortBy s ++ "&order=" ++ SP.sortOrder s in
  requested (SP.fetchRecipes s o) = Some (SP.url s)
  /\ (SP.searchQuery s <> "" ->
      SP.url s
      = "https://dummyjson.com/recipes/search?q=" ++ SP.searchQuery s
        ++ "&" ++ params)
  /\ (SP.searchQuery s = "" ->
      SP.url s = "https://dummyjson.com/recipes?" ++ params)
  /\ (pathname (SP.url s) = Some "/recipes/search" <-> SP.searchQuery s <> "")
  /\ (pathname (SP.url s) = Some "/recipes" <-> SP.searchQuery s = "")
  /\ JS.Number_toString SP.RECIPES_PER_PAGE = "6".
Proof.
  cbv zeta. split; [reflexivity|].
  unfold SP.url, SP.skip.
  destruct (SP.searchQuery s) as [|c text]; cbn [JS.truthy].
  - split; [congruence|]. split; [reflexivity|].
    split; [|split; [|reflexivity]]; split;
      try reflexivity; try discriminate; congruence.
  - split; [reflexivity|]. split; [discriminate|].
    split; [|split; [|reflexivity]]; split;
      try reflexivity; try discriminate; congruence.
Qed.

(** ** Slicing is a function of the list and the page *)

(** C9. The slice shown depends on nothing but the full result set and the
    page number: two renders that agree on both compute the same slice and
    the same grid, whatever the loading flag and the error are. *)
Theorem client_slice_deterministic (s1 s2 : CP.State) :
  CP.recipes s1 = CP.recipes s2 ->
  CP.currentPage s1 = CP.currentPage s2 ->
  CP.currentRecipes s1 = CP.currentRecipes s2
  /\ CP.totalPages s1 = CP.totalPages s2
  /\ CP.grid s1 = CP.grid s2.
Proof.
  intros Hr Hp.
  assert (H : CP.currentRecipes s1 = CP.currentRecipes s2).
  { unfold CP.currentRecipes, CP.indexOfFirstRecipe, CP.indexOfLastRecipe.
    rewrite Hr, Hp. reflexivity. }
  split; [exact H|]. split.
  - unfold CP.totalPages. rewrite Hr. reflexivity.
  - unfold CP.grid. rewrite H. reflexivity.
Qed.

(** ** Selection *)

Lemma server_deps_unchanged (s s' : SP.State) :
  SP.currentPage s' = SP.currentPage s ->
  SP.searchQuery s' = SP.searchQuery s ->
  SP.sortBy s' = SP.sortBy s ->
  SP.sortOrder s' = SP.sortOrder s ->
  SP.deps_changed s s' = false.
Proof.
  unfold SP.deps_changed. intros -> -> -> ->.
  rewrite Z.eqb_refl, !String.eqb_refl. reflexivity.
Qed.

(** C10. Selecting a card and closing the overlay write the selection and
    nothing else: the recipe list, the total page count, the page, the search
    text, the sort field and order, the loading flag and the error are as
    before, no dependency of the effect changed, and the render that follows
    starts no fetch. *)
Theorem selection_changes_only_selection
    (s : SP.State) (recipe : SP.Recipe) (o : outcome SP.Data.t)
    (pending : list (list (step SP.setter))) :
  let opened := SP.run (SP.onCardClick recipe) s in
  let closed := SP.run SP.onClose s in
  SP.selectedRecipe opened = Some recipe
  /\ SP.selectedRecipe closed = None
  /\ (forall s', s' = opened \/ s' = closed ->
      SP.recipes s' = SP.recipes s
      /\ SP.totalPages s' = SP.totalPages s
      /\ SP.currentPage s' = SP.currentPage s
      /\ SP.searchQuery s' = SP.searchQuery s
      /\ SP.sortBy s' = SP.sortBy s
      /\ SP.sortOrder s' = SP.sortOrder s
      /\ SP.loading s' = SP.loading s
      /\ SP.error s' = SP.error s
      /\ SP.deps_changed s s' = false
      /\ SP.commit s s' o pending = {| SP.ui := s'; SP.inflight := pending |}).
Proof.
  cbv zeta. split; [destruct s; reflexivity|].
  split; [destruct s; reflexivity|].
  intros s' Hs'.
  assert (Hframe : SP.recipes s' = SP.recipes s
                   /\ SP.totalPages s' = SP.totalPages s
                   /\ SP.currentPage s' = SP.currentPage s
                   /\ SP.searchQuery s' = SP.searchQuery s
                   /\ SP.sortBy s' = SP.sortBy s
                   /\ SP.sortOrder s' = SP.sortOrder s
                   /\ SP.loading s' = SP.loading s
                   /\ SP.error s' = SP.error s).
  { destruct Hs' as [-> | ->]; destruct s; repeat split. }
  destruct Hframe as (Hr & Ht & Hp & Hq & Hb & Ho & Hl & He).
  assert (Hdeps : SP.deps_changed s s' = false)
    by (apply server_deps_unchanged; assumption).
  repeat (split; [assumption|]).
  unfold SP.commit. rewrite Hdeps. reflexivity.
Qed.

(** ** The main view *)

Lemma server_app_view (s : SP.State) :
  SP.loading s = false ->
  JS.truthy_opt (SP.error s) = false ->
  SP.App s = el "div" "app-container" (SP.app_children s).
Proof. intros Hl He. unfold SP.App. rewrite Hl, He. reflexivity. Qed.

Lemma client_app_view (c : CP.State) :
  CP.loading c = false ->
  JS.truthy_opt (CP.error c) = false ->
  CP.App c = el "div" "app-container" (CP.app_children c).
Proof. intros Hl He. unfold CP.App. rewrite Hl, He. reflexivity. Qed.

Lemma server_pagination_child (s : SP.State) :
  1 < SP.totalPages s ->
  nth_error (SP.app_children s) pagination_index = Some (SP.pagination s).
Proof.
  intros Ht. unfold SP.app_children.
  destruct (Z.ltb_spec 1 (SP.totalPages s)); [reflexivity | lia].
Qed.

Lemma server_overlay_child (s : SP.State) (recipe : SP.Recipe) :
  SP.selectedRecipe s = Some recipe ->
  nth_error (SP.app_children s) (overlay_index s)
  = Some (SP.RecipeDetail recipe SP.onClose).
Proof.
  intros Hsel. unfold SP.app_children, overlay_index. rewrite Hsel.
  destruct (1 <? SP.totalPages s); reflexivity.
Qed.

Lemma server_no_overlay (s : SP.State) :
  SP.selectedRecipe s = None ->
  nth_error (SP.app_children s) (overlay_index s) = None.
Proof.
  intros Hsel. unfold SP.app_children, overlay_index. rewrite Hsel.
  destruct (1 <? SP.totalPages s); reflexivity.
Qed.

Lemma server_card_child (s : SP.State) (i : nat) (recipe : SP.Recipe) :
  nth_error (SP.recipes s) i = Some recipe ->
  nth_error (children_of (SP.grid s)) i
  = Some (keyed (JS.Number_toString (SP.id recipe))
                (SP.RecipeCard recipe SP.onCardClick)).
Proof.
  intros Hi. unfold SP.grid. cbn [el children_of].
  destruct (Z.ltb_spec 0 (Z.of_nat (List.length (SP.recipes s)))) as [_|Hlen].
  - rewrite nth_error_map, Hi. reflexivity.
  - destruct (SP.recipes s); [destruct i; discriminate | cbn in Hlen; lia].
Qed.

Lemma calls_map_Set {U : Type} (us : list U) : calls (map Set_ us) = us.
Proof.
  induction us as [|u us IH]; [reflexivity|]. cbn. f_equal. exact IH.
Qed.

Lemma stops_map_Set {U : Type} (us : list U) : stops (map Set_ us) = false.
Proof.
  induction us as [|u us IH]; [reflexivity|]. cbn. exact IH.
Qed.

(** ** Pagination buttons *)

Lemma button_click {U : Type} (attrs : list (string * string)) (d : bool)
    (h : handler U) (ch : list (vnode U)) :
  click (button attrs d h ch) [] = Some (if d then [] else calls h).
Proof.
  unfold click, button.
  cbn [propagation_path is_element existsb is_disabled map own_click bubble].
  rewrite orb_false_r. destruct d; [reflexivity|].
  destruct (stops h); rewrite app_nil_r; reflexivity.
Qed.

Lemma server_previous_button (s : SP.State) :
  SP.loading s = false ->
  JS.truthy_opt (SP.error s) = false ->
  1 < SP.totalPages s ->
  click (SP.App s) [pagination_index; 0%nat]
  = Some (if SP.currentPage s =? 1 then [] else calls SP.previous_click).
Proof.
  intros Hl He Ht. rewrite server_app_view by assumption.
  unfold el at 1.
  rewrite (click_through _ _ _ _ _ _ _ (server_pagination_child s Ht)).
  unfold SP.pagination, el at 1.
  erewrite click_through by reflexivity.
  apply button_click.
Qed.

Lemma server_next_button (s : SP.State) :
  SP.loading s = false ->
  JS.truthy_opt (SP.error s) = false ->
  1 < SP.totalPages s ->
  click (SP.App s) [pagination_index; 2%nat]
  = Some (if SP.currentPage s =? SP.totalPages s then []
          else calls (SP.next_click s)).
Proof.
  intros Hl He Ht. rewrite server_app_view by assumption.
  unfold el at 1.
  rewrite (click_through _ _ _ _ _ _ _ (server_pagination_child s Ht)).
  unfold SP.pagination, el at 1.
  erewrite click_through by reflexivity.
  apply button_click.
Qed.

Lemma client_previous_button (c : CP.State) :
  CP.loading c = false ->
  JS.truthy_opt (CP.error c) = false ->
  click (CP.App c) [2%nat; 0%nat]
  = Some (if CP.currentPage c =? 1 then [] else calls CP.previous_click).
Proof.
  intros Hl He. rewrite client_app_view by assumption.
  unfold el at 1, CP.app_children.
  erewrite click_through by reflexivity.
  unfold CP.pagination, el at 1.
  erewrite click_through by reflexivity.
  apply button_click.
Qed.

Lemma client_next_button (c : CP.State) :
  CP.loading c = false ->
  JS.truthy_opt (CP.error c) = false ->
  click (CP.App c) [2%nat; 2%nat]
  = Some (if CP.currentPage c =? CP.totalPages c then []
          else calls (CP.next_click c)).
Proof.
  intros Hl He. rewrite client_app_view by assumption.
  unfold el at 1, CP.app_children.
  erewrite click_through by reflexivity.
  unfold CP.pagination, el at 1.
  erewrite click_through by reflexivity.
  apply button_click.
Qed.

(** C6. Clamp law, in both variants: "previous" yields [max (p - 1) 1] and
    "next" yields [min (p + 1) t]; at page 1 "previous" leaves the page at 1
    and at page [t] "next" leaves it at [t].  This holds of the two handlers,
    and of a click on the two buttons wherever the controls are displayed. *)
Theorem pagination_clamp_law (s : SP.State) (c : CP.State) :
  (SP.currentPage (SP.run (calls SP.previous_click) s)
   = Z.max (SP.currentPage s - 1) 1
   /\ SP.currentPage (SP.run (calls (SP.next_click s)) s)
      = Z.min (SP.currentPage s + 1) (SP.totalPages s)
   /\ CP.currentPage (CP.run (calls CP.previous_click) c)
      = Z.max (CP.currentPage c - 1) 1
   /\ CP.currentPage (CP.run (calls (CP.next_click c)) c)
      = Z.min (CP.currentPage c + 1) (CP.totalPages c))
  /\ ((SP.currentPage s = 1 ->
       SP.currentPage (SP.run (calls SP.previous_click) s) = 1)
      /\ (SP.currentPage s = SP.totalPages s ->
          SP.currentPage (SP.run (calls (SP.next_click s)) s)
          = SP.totalPages s)
      /\ (CP.currentPage c = 1 ->
          CP.currentPage (CP.run (calls CP.previous_click) c) = 1)
      /\ (CP.currentPage c = CP.totalPages c ->
          CP.currentPage (CP.run (calls (CP.next_click c)) c)
          = CP.totalPages c))
  /\ (SP.loading s = false -> JS.truthy_opt (SP.error s) = false ->
      1 < SP.totalPages s ->
      SP.currentPage (server_clicked s [pagination_index; 0%nat])
      = Z.max (SP.currentPage s - 1) 1
      /\ SP.currentPage (server_clicked s [pagination_index; 2%nat])
         = Z.min (SP.currentPage s + 1) (SP.totalPages s))
  /\ (CP.loading c = false -> JS.truthy_opt (CP.error c) = false ->
      CP.currentPage (client_clicked c [2%nat; 0%nat])
      = Z.max (CP.currentPage c - 1) 1
      /\ CP.currentPage (client_clicked c [2%nat; 2%nat])
         = Z.min (CP.currentPage c + 1) (CP.totalPages c)).
Proof.
  assert (Hs1 : SP.currentPage (SP.run (calls SP.previous_click) s)
                = Z.max (SP.currentPage s - 1) 1) by (destruct s; reflexivity).
  assert (Hs2 : SP.currentPage (SP.run (calls (SP.next_click s)) s)
                = Z.min (SP.currentPage s + 1) (SP.totalPages s))
    by (destruct s; reflexivity).
  assert (Hc1 : CP.currentPage (CP.run (calls CP.previous_click) c)
                = Z.max (CP.currentPage c - 1) 1) by (destruct c; reflexivity).
  assert (Hc2 : CP.currentPage (CP.run (calls (CP.next_click c)) c)
                = Z.min (CP.currentPage c + 1) (CP.totalPages c))
    by (destruct c; reflexivity).
  split; [repeat split; assumption|]. split.
  - rewrite Hs1, Hs2, Hc1, Hc2. repeat split; lia.
  - split.
    + intros Hl He Ht. unfold server_clicked.
      rewrite server_previous_button, server_next_button by assumption.
      split.
      * destruct (Z.eqb_spec (SP.currentPage s) 1); [cbn; lia | exact Hs1].
      * destruct (Z.eqb_spec (SP.currentPage s) (SP.totalPages s));
          [cbn; lia | exact Hs2].
    + intros Hl He. unfold client_clicked.
      rewrite client_previous_button, client_next_button by assumption.
      split.
      * destruct (Z.eqb_spec (CP.currentPage c) 1); [cbn; lia | exact Hc1].
      * destruct (Z.eqb_spec (CP.currentPage c) (CP.totalPages c));
          [cbn | exact Hc2].
        lia.
Qed.

(** ** Cards and the detail overlay *)

Lemma card_body_inert (recipe : SP.Recipe) :
  forallb inert (SP.card_body recipe) = true.
Proof. reflexivity. Qed.

Lemma items_inert (l : list string) : forallb inert (mapi SP.item l) = true.
Proof.
  unfold mapi. generalize 0%nat.
  induction l as [|x l IH]; intros i; [reflexivity|].
  cbn. apply IH.
Qed.

Lemma modal_body_inert (recipe : SP.Recipe) :
  forallb inert (SP.modal_body recipe) = true.
Proof.
  unfold SP.modal_body. cbn. rewrite !items_inert. reflexivity.
Qed.

(** A click anywhere in a card calls [onCardClick] with the card's recipe. *)
Lemma card_click (recipe : SP.Recipe) (f : SP.Recipe -> list SP.setter)
    (k : string) (p : list nat) (us : list SP.setter) :
  click (keyed k (SP.RecipeCard recipe f)) p = Some us -> us = f recipe.
Proof.
  unfold click. cbn [keyed SP.RecipeCard].
  destruct (propagation_path p _) as [path|] eqn:Hp; [|discriminate].
  destruct (propagation_below _ _ _ _ _ _ _ (card_body_inert recipe) Hp)
    as (below & -> & Hen & Hquiet).
  rewrite existsb_app, Hen, map_app, (bubble_silent_prefix _ _ Hquiet).
  cbn [existsb is_disabled orb map own_click bubble].
  rewrite calls_map_Set, stops_map_Set, app_nil_r.
  intros [= <-]. reflexivity.
Qed.

Lemma card_click_itself (recipe : SP.Recipe) (f : SP.Recipe -> list SP.setter)
    (k : string) :
  click (keyed k (SP.RecipeCard recipe f)) [] = Some (f recipe).
Proof.
  unfold click. cbn [keyed SP.RecipeCard propagation_path is_element existsb
                       is_disabled orb map own_click bubble].
  rewrite calls_map_Set, stops_map_Set, app_nil_r. reflexivity.
Qed.

(** A click on the overlay's background, outside the content region. *)
Lemma overlay_background_click (recipe : SP.Recipe) (close : list SP.setter) :
  click (SP.RecipeDetail recipe close) [] = Some close.
Proof.
  unfold click, SP.RecipeDetail.
  cbn [propagation_path is_element existsb is_disabled orb map own_click bubble].
  rewrite calls_map_Set, stops_map_Set, app_nil_r. reflexivity.
Qed.

(** A click on the close button: its own handler closes; the content region
    then stops the event, so the background's handler does not run as well. *)
Lemma overlay_close_button_click (recipe : SP.Recipe) (close : list SP.setter) :
  click (SP.RecipeDetail recipe close) [0; 0]%nat = Some close.
Proof.
  unfold click, SP.RecipeDetail, SP.modal_content, SP.close_button, button.
  cbn [propagation_path children_of nth_error is_element app existsb
         is_disabled orb map own_click bubble].
  rewrite calls_map_Set, stops_map_Set. cbn. rewrite app_nil_r. reflexivity.
Qed.

(** A click in the content region, on anything but the close button, does
    nothing: the region stops the event before it reaches the background. *)
Lemma overlay_content_click (recipe : SP.Recipe) (close : list SP.setter)
    (p : list nat) (us : list SP.setter) :
  p <> [0%nat] ->
  click (SP.RecipeDetail recipe close) (0%nat :: p) = Some us ->
  us = [].
Proof.
  intros Hp. unfold click, SP.RecipeDetail.
  cbn [propagation_path children_of nth_error].
  destruct p as [|i p].
  - cbn. intros [= <-]. reflexivity.
  - unfold SP.modal_content at 1. cbn [propagation_path children_of].
    destruct i as [|j].
    + (* inside the close button: only its text, which is no click target *)
      cbn [nth_error SP.close_button button].
      destruct p as [|i p]; [congruence|].
      cbn [propagation_path children_of].
      destruct i as [|i]; cbn [nth_error].
      * destruct p as [|i p]; cbn; [discriminate|].
        destruct i; discriminate.
      * destruct i; discriminate.
    + cbn [nth_error].
      destruct (nth_error (SP.modal_body recipe) j) as [c|] eqn:Hc;
        [|discriminate].
      destruct (propagation_path p c) as [below|] eqn:Hb; [|discriminate].
      assert (Hin : inert c = true).
      { pose proof (modal_body_inert recipe) as H.
        rewrite forallb_forall in H. apply H.
        eapply nth_error_In; eassumption. }
      destruct (inert_path_enabled _ (inert_path p c below Hin Hb))
        as [Hen Hquiet].
      rewrite <- app_assoc, existsb_app, Hen, map_app,
        (bubble_silent_prefix _ _ Hquiet).
      cbn. intros [= <-]. reflexivity.
Qed.

Lemma items_listed (l : list string) : flat_map text_of (mapi SP.item l) = l.
Proof.
  unfold mapi. generalize 0%nat.
  induction l as [|x l IH]; intros i; [reflexivity|].
  cbn. f_equal. apply IH.
Qed.

Lemma overlay_lists (recipe : SP.Recipe) (close : list SP.setter) :
  (exists ul, node_at [0; 4; 1]%nat (SP.RecipeDetail recipe close) = Some ul
              /\ tag_of ul = "ul" /\ listed ul = SP.ingredients recipe)
  /\ (exists ol, node_at [0; 5; 1]%nat (SP.RecipeDetail recipe close) = Some ol
                 /\ tag_of ol = "ol" /\ listed ol = SP.instructions recipe).
Proof.
  split; eexists; (split; [reflexivity|]); (split; [reflexivity|]);
    apply items_listed.
Qed.

Lemma server_click_in_card (s : SP.State) (i : nat) (recipe : SP.Recipe)
    (p : list nat) :
  SP.loading s = false ->
  JS.truthy_opt (SP.error s) = false ->
  nth_error (SP.recipes s) i = Some recipe ->
  click (SP.App s) (3%nat :: i :: p)
  = click (keyed (JS.Number_toString (SP.id recipe))
                 (SP.RecipeCard recipe SP.onCardClick)) p.
Proof.
  intros Hl He Hi. rewrite server_app_view by assumption.
  unfold el at 1.
  erewrite click_through by reflexivity.
  pose proof (server_card_child s i recipe Hi) as Hc.
  unfold SP.grid, el in Hc |- *. cbn [children_of] in Hc.
  erewrite click_through by exact Hc. reflexivity.
Qed.

Lemma server_click_in_overlay (s : SP.State) (recipe : SP.Recipe)
    (p : list nat) :
  SP.loading s = false ->
  JS.truthy_opt (SP.error s) = false ->
  SP.selectedRecipe s = Some recipe ->
  click (SP.App s) (overlay_index s :: p)
  = click (SP.RecipeDetail recipe SP.onClose) p.
Proof.
  intros Hl He Hsel. rewrite server_app_view by assumption.
  unfold el at 1.
  erewrite click_through by (apply server_overlay_child; exact Hsel).
  reflexivity.
Qed.

(** What the open overlay shows and how it reacts. *)
Lemma overlay_behaviour (s : SP.State) (recipe : SP.Recipe) :
  SP.loading s = false ->
  JS.truthy_opt (SP.error s) = false ->
  SP.selectedRecipe s = Some recipe ->
  let overlay := overlay_index s in
  nth_error (children_of (SP.App s)) overlay
  = Some (SP.RecipeDetail recipe SP.onClose)
  /\ (exists ul, node_at [overlay; 0; 4; 1]%nat (SP.App s) = Some ul
                 /\ tag_of ul = "ul" /\ listed ul = SP.ingredients recipe)
  /\ (exists ol, node_at [overlay; 0; 5; 1]%nat (SP.App s) = Some ol
                 /\ tag_of ol = "ol" /\ listed ol = SP.instructions recipe)
  /\ server_clicked s [overlay] = SP.run SP.onClose s
  /\ server_clicked s [overlay; 0; 0]%nat = SP.run SP.onClose s
  /\ (forall p, p <> [0%nat] -> server_clicked s (overlay :: 0%nat :: p) = s).
Proof.
  intros Hl He Hsel overlay.
  assert (Hchild : nth_error (children_of (SP.App s)) overlay
                   = Some (SP.RecipeDetail recipe SP.onClose)).
  { rewrite server_app_view by assumption.
    apply server_overlay_child. exact Hsel. }
  destruct (overlay_lists recipe SP.onClose)
    as [(ul & Hul & Htag_ul & Hlist_ul) (ol & Hol & Htag_ol & Hlist_ol)].
  split; [exact Hchild|]. split; [|split; [|split; [|split]]].
  - exists ul. split; [|split; assumption].
    cbn [node_at]. rewrite Hchild. exact Hul.
  - exists ol. split; [|split; assumption].
    cbn [node_at]. rewrite Hchild. exact Hol.
  - unfold server_clicked, overlay.
    rewrite (server_click_in_overlay s recipe) by assumption.
    rewrite overlay_background_click. reflexivity.
  - unfold server_clicked, overlay.
    rewrite (server_click_in_overlay s recipe) by assumption.
    rewrite overlay_close_button_click. reflexivity.
  - intros p Hp. unfold server_clicked, overlay.
    rewrite (server_click_in_overlay s recipe) by assumption.
    destruct (click (SP.RecipeDetail recipe SP.onClose) (0%nat :: p))
      as [us|] eqn:Hclick; [|reflexivity].
    rewrite (overlay_content_click _ _ _ _ Hp Hclick). reflexivity.
Qed.

(** C8. In the main view, a click on a card, or anywhere inside it, selects
    that card's recipe.  The view then shows the overlay for it, whose [ul]
    and [ol] list the recipe's ingredients and instructions in their order.
    A click on the overlay's background or on its close button clears the
    selection, after which no overlay is shown; a click in the content
    region, on anything but the close button, leaves the whole state as it
    is. *)
Theorem card_selection_and_overlay
    (s : SP.State) (i : nat) (recipe : SP.Recipe) :
  SP.loading s = false ->
  JS.truthy_opt (SP.error s) = false ->
  nth_error (SP.recipes s) i = Some recipe ->
  let s' := server_clicked s [3%nat; i] in
  let overlay := overlay_index s' in
  (SP.selectedRecipe s' = Some recipe
   /\ forall p us, click (SP.App s) (3%nat :: i :: p) = Some us ->
                   SP.selectedRecipe (SP.run us s) = Some recipe)
  /\ nth_error (children_of (SP.App s')) overlay
     = Some (SP.RecipeDetail recipe SP.onClose)
  /\ (exists ul, node_at [overlay; 0; 4; 1]%nat (SP.App s') = Some ul
                 /\ tag_of ul = "ul" /\ listed ul = SP.ingredients recipe)
  /\ (exists ol, node_at [overlay; 0; 5; 1]%nat (SP.App s') = Some ol
                 /\ tag_of ol = "ol" /\ listed ol = SP.instructions recipe)
  /\ (SP.selectedRecipe (server_clicked s' [overlay]) = None
      /\ nth_error (children_of (SP.App (server_clicked s' [overlay])))
                   (overlay_index (server_clicked s' [overlay])) = None)
  /\ SP.selectedRecipe (server_clicked s' [overlay; 0; 0]%nat) = None
  /\ (forall p, p <> [0%nat] -> server_clicked s' (overlay :: 0%nat :: p) = s').
Proof.
  intros Hl He Hi s' overlay.
  assert (Hs' : s' = SP.run (SP.onCardClick recipe) s).
  { unfold s', server_clicked.
    rewrite (server_click_in_card s i recipe) by assumption.
    rewrite card_click_itself. reflexivity. }
  assert (Hl' : SP.loading s' = false)
    by (rewrite Hs'; destruct s; exact Hl).
  assert (He' : JS.truthy_opt (SP.error s') = false)
    by (rewrite Hs'; destruct s; exact He).
  assert (Hsel : SP.selectedRecipe s' = Some recipe)
    by (rewrite Hs'; destruct s; reflexivity).
  destruct (overlay_behaviour s' recipe Hl' He' Hsel)
    as (Hchild & Hul & Hol & Hback & Hbutton & Hcontent).
  fold overlay in Hchild, Hul, Hol, Hback, Hbutton, Hcontent.
  split; [split; [exact Hsel|]|].
  - intros p us Hclick.
    rewrite (server_click_in_card s i recipe) in Hclick by assumption.
    apply card_click in Hclick. subst us. destruct s; reflexivity.
  - split; [exact Hchild|]. split; [exact Hul|]. split; [exact Hol|].
    split; [|split; [|exact Hcontent]].
    + rewrite Hback.
      assert (Hnone : SP.selectedRecipe (SP.run SP.onClose s') = None)
        by (destruct s'; reflexivity).
      split; [exact Hnone|].
      rewrite server_app_view.
      * apply server_no_overlay. exact Hnone.
      * destruct s'; exact Hl'.
      * destruct s'; exact He'.
    + rewrite Hbutton. destruct s'; reflexivity.
Qed.

(** ** The page number in the client-paginated variant *)

(** C2, client-paginated variant. When the listing comes back empty the
    total is 0, the "next" button is enabled on page 1, and a click on it
    sets the page to [min 2 0 = 0]: a reachable state whose page number is
    below 1. *)
Theorem client_next_on_empty_result_reaches_page_zero :
  let loaded := CP.run (all_calls (CP.fetchRecipes empty_listing)) CP.initial in
  CP.currentPage loaded = 1
  /\ CP.totalPages loaded = 0
  /\ click (CP.App loaded) [2; 2]%nat = Some (calls (CP.next_click loaded))
  /\ CP.currentPage (client_clicked loaded [2; 2]%nat) = 0
  /\ exists y, CP.reachable empty_listing y
               /\ CP.ui y = client_clicked loaded [2; 2]%nat
               /\ CP.currentPage (CP.ui y) = 0.
Proof.
  cbv zeta. split; [reflexivity|]. split; [reflexivity|].
  split; [reflexivity|]. split; [reflexivity|].
  eexists. split.
  - eapply CP.reach_step;
      [eapply CP.reach_step;
         [eapply CP.reach_step; [apply CP.reach_mount|] |] |].
    + apply (CP.resume _ [] []). reflexivity.
    + apply (CP.resume _ [] []). reflexivity.
    + apply (CP.user_click _ [2; 2]%nat). reflexivity.
  - split; reflexivity.
Qed.

(** ** The theorems at concrete inputs *)

(** A 500 response while page 2 of the search is displayed. *)
Lemma http_failure_replaces_result_state_witness :
  ok failed_500 = false
  /\ ok client_failed_500 = false
  /\ CP.reachable (Resolved client_failed_500)
                  (CP.mount (Resolved client_failed_500))
  /\ SP.error (SP.run (on_response
                         (SP.fetchRecipes browsing (Resolved failed_500)))
                      browsing)
     = Some "HTTP error! status: 500"
  /\ SP.recipes (SP.run (on_response
                           (SP.fetchRecipes browsing (Resolved failed_500)))
                        browsing) = []
  /\ SP.totalPages (SP.run (on_response
                              (SP.fetchRecipes browsing (Resolved failed_500)))
                           browsing) = 0.
Proof.
  pose proof (http_failure_replaces_result_state
                browsing browsing failed_500
                (CP.mount (Resolved client_failed_500)) client_failed_500
                eq_refl eq_refl (CP.reach_mount _)) as H.
  cbv zeta in H. destruct H as [(He & _ & Hr & Ht & _) _].
  split; [reflexivity|]. split; [reflexivity|].
  split; [apply CP.reach_mount|].
  split; [exact He|]. split; [exact Hr | exact Ht].
Defined.

(** Thirteen records, page 3: three pages, one record shown, the last. *)
Lemma client_page_slice_and_total_pages_witness :
  0 <= CP.currentPage thirteen_on_page_3
  /\ CP.totalPages thirteen_on_page_3 = 3
  /\ List.length (CP.currentRecipes thirteen_on_page_3) = 1%nat
  /\ nth_error (CP.currentRecipes thirteen_on_page_3) 0
     = JS.at_index (CP.recipes thirteen_on_page_3) 12.
Proof.
  assert (Hp : 0 <= CP.currentPage thirteen_on_page_3) by (cbn; lia).
  pose proof (client_page_slice_and_total_pages thirteen_on_page_3 Hp) as H.
  cbv zeta in H. destruct H as (_ & _ & Hnth & _ & _ & H13).
  destruct (H13 eq_refl) as [Ht Hlen].
  split; [exact Hp|]. split; [exact Ht|]. split; [exact (Hlen eq_refl)|].
  exact (Hnth 0%nat).
Defined.

(** Typing "pasta" on page 2 of the search for "pizza". *)
Lemma search_change_resets_page_witness :
  SP.loading browsing = false
  /\ JS.truthy_opt (SP.error browsing) = false
  /\ SP.currentPage browsing = 2
  /\ SP.currentPage (SP.run (calls (SP.handleSearchChange "pasta")) browsing) = 1
  /\ change (SP.App browsing) [2; 0]%nat "pasta"
     = Some (calls (SP.handleSearchChange "pasta")).
Proof.
  pose proof (search_change_resets_page browsing "pasta") as H.
  cbv zeta in H. destruct H as (Hp & _ & Hui).
  split; [reflexivity|]. split; [reflexivity|]. split; [reflexivity|].
  split; [exact Hp | exact (Hui eq_refl eq_refl)].
Defined.

(** Page 2 of 3: "previous" gives 1 and "next" gives 3; thirteen records on
    page 3 of 3: "next" stays at 3. *)
Lemma pagination_clamp_law_witness :
  SP.loading browsing = false
  /\ JS.truthy_opt (SP.error browsing) = false
  /\ 1 < SP.totalPages browsing
  /\ CP.currentPage thirteen_on_page_3 = CP.totalPages thirteen_on_page_3
  /\ SP.currentPage (server_clicked browsing [pagination_index; 0%nat])
     = Z.max (2 - 1) 1
  /\ SP.currentPage (server_clicked browsing [pagination_index; 2%nat])
     = Z.min (2 + 1) 3
  /\ CP.currentPage (CP.run (calls (CP.next_click thirteen_on_page_3))
                            thirteen_on_page_3)
     = CP.totalPages thirteen_on_page_3.
Proof.
  pose proof (pagination_clamp_law browsing thirteen_on_page_3) as H.
  destruct H as (_ & (_ & _ & _ & Hlast) & Hui & _).
  assert (Ht : 1 < SP.totalPages browsing) by (cbn; lia).
  destruct (Hui eq_refl eq_refl Ht) as [Hprev Hnext].
  split; [reflexivity|]. split; [reflexivity|]. split; [exact Ht|].
  split; [reflexivity|]. split; [exact Hprev|]. split; [exact Hnext|].
  exact (Hlast eq_refl).
Defined.

(** The request for page 2 of the search for "pizza". *)
Lemma request_url_follows_search_text_witness :
  SP.searchQuery browsing <> ""
  /\ SP.url browsing
     = "https://dummyjson.com/recipes/search?q=pizza&limit=6&skip=6&sortBy=name&order=asc"
  /\ pathname (SP.url browsing) = Some "/recipes/search"
  /\ SP.url SP.initial
     = "https://dummyjson.com/recipes?limit=6&skip=0&sortBy=name&order=asc".
Proof.
  assert (Hq : SP.searchQuery browsing <> "") by discriminate.
  pose proof (request_url_follows_search_text
                browsing (Resolved failed_500)) as H.
  pose proof (request_url_follows_search_text
                SP.initial (Resolved failed_500)) as H0.
  cbv zeta in H, H0.
  destruct H as (_ & Hsearch & _ & Hpath & _).
  destruct H0 as (_ & _ & Hlist & _).
  split; [exact Hq|]. split; [exact (Hsearch Hq)|].
  split; [exact (proj2 Hpath Hq) | exact (Hlist eq_refl)].
Defined.

(** Clicking the only card of the page, then closing the overlay. *)
Lemma card_selection_and_overlay_witness :
  SP.loading browsing = false
  /\ JS.truthy_opt (SP.error browsing) = false
  /\ nth_error (SP.recipes browsing) 0 = Some margherita
  /\ SP.selectedRecipe (server_clicked browsing [3; 0]%nat) = Some margherita
  /\ SP.selectedRecipe
       (server_clicked (server_clicked browsing [3; 0]%nat) [5; 0; 0]%nat)
     = None
  /\ server_clicked (server_clicked browsing [3; 0]%nat) [5; 0; 1]%nat
     = server_clicked browsing [3; 0]%nat.
Proof.
  pose proof (card_selection_and_overlay browsing 0 margherita
                eq_refl eq_refl eq_refl) as H.
  cbv zeta in H.
  destruct H as ((Hsel & _) & _ & _ & _ & _ & Hbutton & Hcontent).
  split; [reflexivity|]. split; [reflexivity|]. split; [reflexivity|].
  split; [exact Hsel|]. split; [exact Hbutton|].
  apply (Hcontent [1%nat]). discriminate.
Defined.

(** The same thirteen records on page 3, while a render shows an error. *)
Lemma client_slice_deterministic_witness :
  CP.recipes thirteen_on_page_3 = CP.recipes thirteen_failed
  /\ CP.currentPage thirteen_on_page_3 = CP.currentPage thirteen_failed
  /\ CP.currentRecipes thirteen_on_page_3 = CP.currentRecipes thirteen_failed.
Proof.
  split; [reflexivity|]. split; [reflexivity|].
  exact (proj1 (client_slice_deterministic thirteen_on_page_3 thirteen_failed
                  eq_refl eq_refl)).
Defined.

(** Selecting the card on page 2 of the search: nothing else moves, and no
    fetch starts. *)
Lemma selection_changes_only_selection_witness :
  SP.selectedRecipe (SP.run (SP.onCardClick margherita) browsing)
  = Some margherita
  /\ SP.currentPage (SP.run (SP.onCardClick margherita) browsing) = 2
  /\ SP.commit browsing (SP.run (SP.onCardClick margherita) browsing)
               (Resolved failed_500) []
     = {| SP.ui := SP.run (SP.onCardClick margherita) browsing;
          SP.inflight := [] |}.
Proof.
  pose proof (selection_changes_only_selection
                browsing margherita (Resolved failed_500) []) as H.
  cbv zeta in H. destruct H as (Hsel & _ & Hframe).
  destruct (Hframe _ (or_introl eq_refl))
    as (_ & _ & Hp & _ & _ & _ & _ & _ & _ & Hcommit).
  split; [exact Hsel|]. split; [exact Hp | exact Hcommit].
Defined.

(** * Further properties *)

(** ** How a request ends *)


(** X4. When [fetch] rejects, or the body of an ok response does not parse, the
    run records the message of the thrown [Error], or the fixed text
    "Ocorreu um erro desconhecido" when what was thrown is no [Error]; it
    empties the list, zeroes the total and turns the loading flag off.  The
    client-paginated variant records the same message. *)
Theorem thrown_failure_records_message
    (q s0 : SP.State) (r : Response SP.Data.t) (c0 : CP.State)
    (rc : Response CP.Data.t) (e : thrown) :
  ok r = true -> json r = inl e ->
  ok rc = true -> json rc = inl e ->
  let text := match e with
              | ErrorObject m => m
              | OtherValue => "Ocorreu um erro desconhecido"
              end in
  (forall o, o = Rejected e \/ o = Resolved r ->
             let s' := SP.run (all_calls (SP.fetchRecipes q o)) s0 in
             SP.error s' = Some text
             /\ SP.recipes s' = []
             /\ SP.totalPages s' = 0
             /\ SP.loading s' = false)
  /\ (forall o, o = Rejected e \/ o = Resolved rc ->
                let c' := CP.run (all_calls (CP.fetchRecipes o)) c0 in
                CP.error c' = Some text
                /\ CP.recipes c' = CP.recipes c0
                /\ CP.loading c' = false).
Proof.
  intros Hok Hjson Hokc Hjsonc text. split.
  - intros o [-> | ->]; cbv zeta; unfold SP.fetchRecipes;
      rewrite ?Hok, ?Hjson; destruct s0, e; repeat split.
  - intros o [-> | ->]; cbv zeta; unfold CP.fetchRecipes;
      rewrite ?Hokc, ?Hjsonc; destruct c0, e; repeat split.
Qed.

(** X5. However the request settles, the run ends with the loading flag off, in
    both variants. *)
Theorem fetch_always_ends_loading
    (q s0 : SP.State) (o : outcome SP.Data.t)
    (c0 : CP.State) (oc : outcome CP.Data.t) :
  SP.loading (SP.run (all_calls (SP.fetchRecipes q o)) s0) = false
  /\ CP.loading (CP.run (all_calls (CP.fetchRecipes oc)) c0) = false.
Proof.
  split.
  - unfold SP.fetchRecipes.
    destruct o as [e|r]; [destruct s0; reflexivity|].
    destruct (negb (ok r)); [destruct s0; reflexivity|].
    destruct (json r); destruct s0; reflexivity.
  - unfold CP.fetchRecipes.
    destruct oc as [e|r]; [destruct c0; reflexivity|].
    destruct (negb (ok r)); [destruct c0; reflexivity|].
    destruct (json r); destruct c0; reflexivity.
Qed.

(** ** What a settling request leaves alone *)

Lemma server_fetch_query_untouched (q : SP.State) (o : outcome SP.Data.t) :
  Forall query_untouched (all_calls (SP.fetchRecipes q o)).
Proof.
  assert (Hcatch : forall e, Forall query_untouched
                     (all_calls (SP.catch e ++ SP.finally))).
  { intros e. cbn.
    repeat (apply Forall_cons; [intros []; repeat split|]). apply Forall_nil. }
  unfold SP.fetchRecipes. cbn [app all_calls flat_map].
  apply Forall_cons; [intros []; repeat split|].
  apply Forall_cons; [intros []; repeat split|].
  destruct o as [e|response]; [apply Hcatch|].
  destruct (negb (ok response)); [apply Hcatch|].
  cbn [app all_calls flat_map].
  destruct (json response) as [e|data]; [apply Hcatch|].
  cbn. repeat (apply Forall_cons; [intros []; repeat split|]). apply Forall_nil.
Qed.

Lemma server_run_query_untouched (us : list SP.setter) :
  Forall query_untouched us ->
  forall s,
    SP.currentPage (SP.run us s) = SP.currentPage s
    /\ SP.searchQuery (SP.run us s) = SP.searchQuery s
    /\ SP.sortBy (SP.run us s) = SP.sortBy s
    /\ SP.sortOrder (SP.run us s) = SP.sortOrder s
    /\ SP.selectedRecipe (SP.run us s) = SP.selectedRecipe s.
Proof.
  induction 1 as [|u us Hu _ IH]; intros s; [repeat split|].
  change (SP.run (u :: us) s) with (SP.run us (SP.apply u s)).
  destruct (IH (SP.apply u s)) as (-> & -> & -> & -> & ->).
  apply Hu.
Qed.

(** Every suspended run is what is left of some run of [fetchRecipes]: what
    holds of all the calls of such runs holds of the calls still to come. *)
Lemma server_inflight_calls (Q : SP.setter -> Prop) :
  (forall q o, Forall Q (all_calls (SP.fetchRecipes q o))) ->
  forall y, SP.reachable y ->
            Forall (fun k => Forall Q (all_calls k)) (SP.inflight y).
Proof.
  intros HQ.
  assert (Hstart : forall s o pending,
             Forall (fun k => Forall Q (all_calls k)) pending ->
             Forall (fun k => Forall Q (all_calls k))
                    (SP.inflight (SP.start_fetch s o pending))).
  { intros s o pending Hp. unfold SP.start_fetch.
    destruct (advance_calls Q _ (HQ s o)) as [_ H2].
    destruct (advance (SP.fetchRecipes s o)) as [us rest]. cbn in *.
    apply Forall_app. split; [exact Hp | constructor; [exact H2 | constructor]]. }
  assert (Hcommit : forall prev next o pending,
             Forall (fun k => Forall Q (all_calls k)) pending ->
             Forall (fun k => Forall Q (all_calls k))
                    (SP.inflight (SP.commit prev next o pending))).
  { intros prev next o pending Hp. unfold SP.commit.
    destruct (SP.deps_changed prev next); [apply Hstart|]; exact Hp. }
  intros y Hy. induction Hy as [o | y y' _ IH Hstep].
  - apply Hstart. constructor.
  - destruct Hstep as [y p us o _ | y p value us o _ | y pre post k o Hk].
    + apply Hcommit, IH.
    + apply Hcommit, IH.
    + apply Hcommit. rewrite Hk in IH. apply Forall_app in IH.
      destruct IH as [Hpre Hrest].
      inversion Hrest as [|? ? Hkq Hpost]; subst.
      destruct (advance_calls Q k Hkq) as [_ H2].
      apply Forall_app. split; [exact Hpre | constructor; assumption].
Qed.

(** X6. In every reachable state, when a suspended run resumes (a response
    arrives or its body is parsed) the page, the search text, the sort field
    and order and the selection stay as they are, so the render that follows
    starts no new request: a result never causes a fetch. *)
Theorem settling_request_starts_no_fetch
    (y : SP.System) (pre post : list (list (step SP.setter)))
    (k : list (step SP.setter)) (o : outcome SP.Data.t) :
  SP.reachable y ->
  SP.inflight y = (pre ++ k :: post)%list ->
  let next := SP.run (fst (advance k)) (SP.ui y) in
  let pending := (pre ++ snd (advance k) :: post)%list in
  SP.commit (SP.ui y) next o pending
  = {| SP.ui := next; SP.inflight := pending |}
  /\ SP.currentPage next = SP.currentPage (SP.ui y)
  /\ SP.searchQuery next = SP.searchQuery (SP.ui y)
  /\ SP.sortBy next = SP.sortBy (SP.ui y)
  /\ SP.sortOrder next = SP.sortOrder (SP.ui y)
  /\ SP.selectedRecipe next = SP.selectedRecipe (SP.ui y).
Proof.
  intros Hy Hk next pending.
  pose proof (server_inflight_calls query_untouched
                server_fetch_query_untouched y Hy) as Hall.
  rewrite Hk in Hall. apply Forall_app in Hall. destruct Hall as [_ Hrest].
  inversion Hrest as [|? ? Hkq _]; subst.
  destruct (advance_calls query_untouched k Hkq) as [H1 _].
  destruct (server_run_query_untouched _ H1 (SP.ui y))
    as (Hp & Hq & Hb & Ho & Hsel).
  fold next in Hp, Hq, Hb, Ho, Hsel.
  split; [|repeat split; assumption].
  unfold SP.commit.
  rewrite (server_deps_unchanged (SP.ui y) next Hp Hq Hb Ho). reflexivity.
Qed.

(** The 500 answer to the request made on mount arrives. *)
Lemma settling_request_starts_no_fetch_witness :
  SP.reachable (SP.mount (Resolved failed_500))
  /\ SP.inflight (SP.mount (Resolved failed_500))
     = [snd (advance (SP.fetchRecipes SP.initial (Resolved failed_500)))]
  /\ SP.currentPage
       (SP.run (on_response (SP.fetchRecipes SP.initial (Resolved failed_500)))
               (SP.ui (SP.mount (Resolved failed_500)))) = 1.
Proof.
  pose proof (settling_request_starts_no_fetch
                (SP.mount (Resolved failed_500)) [] []
                (snd (advance (SP.fetchRecipes SP.initial (Resolved failed_500))))
                (Resolved failed_500) (SP.reach_mount _) eq_refl) as H.
  cbv zeta in H. destruct H as (_ & Hp & _).
  split; [apply SP.reach_mount|]. split; [reflexivity | exact Hp].
Defined.


Lemma thrown_failure_records_message_witness :
  ok garbled = true
  /\ SP.error (SP.run (all_calls (SP.fetchRecipes browsing (Resolved garbled)))
                      browsing)
     = Some "Unexpected token < in JSON at position 0"
  /\ SP.recipes (SP.run (all_calls (SP.fetchRecipes browsing
                                      (Resolved garbled))) browsing) = [].
Proof.
  pose proof (thrown_failure_records_message
                browsing browsing garbled CP.initial
                {| status := 200;
                   json := inl (ErrorObject
                                  "Unexpected token < in JSON at position 0") |}
                (ErrorObject "Unexpected token < in JSON at position 0")
                eq_refl eq_refl eq_refl eq_refl) as H.
  cbv zeta in H. destruct H as [Hs _].
  destruct (Hs (Resolved garbled) (or_intror eq_refl)) as (He & Hr & _).
  split; [reflexivity|]. split; [exact He | exact Hr].
Defined.

(** ** The status views *)

Lemma no_handler_no_call {U : Type} (us : list U) :
  Forall (fun _ => False) us -> us = [].
Proof. destruct 1 as [|u us []]. reflexivity. Qed.

Lemma server_status_view_has_no_handler (s : SP.State) :
  server_status_view s = true -> all_handlers (fun _ => False) (SP.App s).
Proof.
  unfold server_status_view, SP.App. intros H.
  destruct (SP.loading s); [cbn; repeat split|].
  destruct (JS.truthy_opt (SP.error s)); [cbn; repeat split | discriminate].
Qed.

Lemma client_status_view_has_no_handler (c : CP.State) :
  client_status_view c = true -> all_handlers (fun _ => False) (CP.App c).
Proof.
  unfold client_status_view, CP.App. intros H.
  destruct (CP.loading c); [cbn; repeat split|].
  destruct (JS.truthy_opt (CP.error c)); [cbn; repeat split | discriminate].
Qed.

Lemma server_status_view_silent (s : SP.State) (p : list nat) :
  server_status_view s = true ->
  (forall us, click (SP.App s) p = Some us -> us = [])
  /\ (forall value us, change (SP.App s) p value = Some us -> us = []).
Proof.
  intros H. split.
  - intros us Hc. apply no_handler_no_call.
    eapply click_all_handlers;
      [apply server_status_view_has_no_handler, H | exact Hc].
  - intros value us Hc. apply no_handler_no_call.
    eapply change_all_handlers;
      [apply server_status_view_has_no_handler, H | exact Hc].
Qed.

Lemma client_status_view_silent (c : CP.State) (p : list nat) :
  client_status_view c = true ->
  (forall us, click (CP.App c) p = Some us -> us = [])
  /\ (forall value us, change (CP.App c) p value = Some us -> us = []).
Proof.
  intros H. split.
  - intros us Hc. apply no_handler_no_call.
    eapply click_all_handlers;
      [apply client_status_view_has_no_handler, H | exact Hc].
  - intros value us Hc. apply no_handler_no_call.
    eapply change_all_handlers;
      [apply client_status_view_has_no_handler, H | exact Hc].
Qed.

(** X7. While "Carregando receitas..." or an error message is displayed, the
    view holds no control: no click and no change event, wherever it lands,
    makes a setter call, in either variant. *)
Theorem status_views_ignore_events (s : SP.State) (c : CP.State) :
  (server_status_view s = true ->
   forall p,
     (forall us, click (SP.App s) p = Some us -> us = [])
     /\ (forall value us, change (SP.App s) p value = Some us -> us = []))
  /\ (client_status_view c = true ->
      forall p,
        (forall us, click (CP.App c) p = Some us -> us = [])
        /\ (forall value us, change (CP.App c) p value = Some us -> us = [])).
Proof.
  split; intros H p.
  - apply server_status_view_silent, H.
  - apply client_status_view_silent, H.
Qed.

Lemma status_views_ignore_events_witness :
  server_status_view search_failed = true
  /\ client_status_view thirteen_failed = true
  /\ (forall us, click (SP.App search_failed) [] = Some us -> us = [])
  /\ (forall us, click (CP.App thirteen_failed) [] = Some us -> us = []).
Proof.
  destruct (status_views_ignore_events search_failed thirteen_failed)
    as [Hs Hc].
  split; [reflexivity|]. split; [reflexivity|].
  split; [exact (proj1 (Hs eq_refl [])) | exact (proj1 (Hc eq_refl []))].
Defined.

Lemma server_commit_same (s : SP.State) (o : outcome SP.Data.t)
    (pending : list (list (step SP.setter))) :
  SP.commit s s o pending = {| SP.ui := s; SP.inflight := pending |}.
Proof.
  unfold SP.commit.
  rewrite (server_deps_unchanged s s eq_refl eq_refl eq_refl eq_refl).
  reflexivity.
Qed.

Lemma server_status_step (y y' : SP.System) :
  server_status_view (SP.ui y) = true ->
  server_idle y ->
  SP.sys_step y y' ->
  SP.ui y' = SP.ui y /\ server_idle y'.
Proof.
  intros Hview Hidle Hstep.
  pose proof (fun p => server_status_view_silent (SP.ui y) p Hview) as Hev.
  destruct Hstep as [y p us o Hclick | y p value us o Hchange
                    | y pre post k o Hk].
  - rewrite (proj1 (Hev p) us Hclick). cbn [SP.run fold_left].
    rewrite server_commit_same. split; [reflexivity | exact Hidle].
  - rewrite (proj2 (Hev p) value us Hchange). cbn [SP.run fold_left].
    rewrite server_commit_same. split; [reflexivity | exact Hidle].
  - unfold server_idle in Hidle. rewrite Hk in Hidle.
    apply Forall_app in Hidle. destruct Hidle as [Hpre Hrest].
    inversion Hrest as [|? ? Hknil Hpost]; subst.
    cbn [advance fst snd SP.run fold_left].
    rewrite server_commit_same. split; [reflexivity|].
    unfold server_idle. cbn [SP.inflight].
    apply Forall_app. split; [exact Hpre | constructor; [reflexivity | exact Hpost]].
Qed.

(** X8. Server-paginated variant: once a status view is displayed and no request
    is in flight, the state never changes again, whatever the user does.  In
    particular a displayed error is final: the view has no control left to
    trigger a new attempt. *)
Theorem server_status_view_is_final (y y' : SP.System) :
  server_status_view (SP.ui y) = true ->
  server_idle y ->
  clos_refl_trans_n1 _ SP.sys_step y y' ->
  SP.ui y' = SP.ui y /\ server_idle y'.
Proof.
  intros Hview Hidle Hsteps.
  induction Hsteps as [|y1 y2 Hstep _ [IHui IHidle]].
  - split; [reflexivity | exact Hidle].
  - destruct (server_status_step y1 y2) as [Hui Hidle2];
      [rewrite IHui; exact Hview | exact IHidle | exact Hstep |].
    split; [rewrite Hui; exact IHui | exact Hidle2].
Qed.

(** The failed search, one click later. *)
Lemma server_status_view_is_final_witness :
  server_status_view search_failed = true
  /\ server_idle {| SP.ui := search_failed; SP.inflight := [[]] |}
  /\ SP.ui (SP.commit search_failed (server_clicked search_failed [])
                      (Resolved failed_500) [[]])
     = search_failed.
Proof.
  assert (Hidle : server_idle {| SP.ui := search_failed; SP.inflight := [[]] |})
    by (repeat constructor).
  assert (Hstep : SP.sys_step
                    {| SP.ui := search_failed; SP.inflight := [[]] |}
                    (SP.commit search_failed (server_clicked search_failed [])
                               (Resolved failed_500) [[]])).
  { apply (SP.user_click {| SP.ui := search_failed; SP.inflight := [[]] |}
                         [] [] (Resolved failed_500)). reflexivity. }
  destruct (server_status_view_is_final
              {| SP.ui := search_failed; SP.inflight := [[]] |}
              (SP.commit search_failed (server_clicked search_failed [])
                         (Resolved failed_500) [[]])
              eq_refl Hidle
              (Relation_Operators.rtn1_trans _ _ _ _ _ Hstep
                 (Relation_Operators.rtn1_refl _ _ _))) as [Hui _].
  split; [reflexivity|]. split; [exact Hidle | exact Hui].
Defined.

Lemma client_status_step (y y' : CP.System) :
  client_status_view (CP.ui y) = true ->
  client_idle y ->
  CP.sys_step y y' ->
  CP.ui y' = CP.ui y /\ client_idle y'.
Proof.
  intros Hview Hidle Hstep.
  destruct Hstep as [y p us Hclick | y pre post k Hk].
  - rewrite (proj1 (client_status_view_silent (CP.ui y) p Hview) us Hclick).
    split; [reflexivity | exact Hidle].
  - unfold client_idle in Hidle. rewrite Hk in Hidle.
    apply Forall_app in Hidle. destruct Hidle as [Hpre Hrest].
    inversion Hrest as [|? ? Hknil Hpost]; subst.
    split; [reflexivity|].
    unfold client_idle. cbn [CP.inflight advance snd].
    apply Forall_app. split; [exact Hpre | constructor; [reflexivity | exact Hpost]].
Qed.

(** X9. Client-paginated variant: once a status view is displayed and its one
    request has ended, the state never changes again: the view has no control
    and there is no second request. *)
Theorem client_status_view_is_final (y y' : CP.System) :
  client_status_view (CP.ui y) = true ->
  client_idle y ->
  clos_refl_trans_n1 _ CP.sys_step y y' ->
  CP.ui y' = CP.ui y /\ client_idle y'.
Proof.
  intros Hview Hidle Hsteps.
  induction Hsteps as [|y1 y2 Hstep _ [IHui IHidle]].
  - split; [reflexivity | exact Hidle].
  - destruct (client_status_step y1 y2) as [Hui Hidle2];
      [rewrite IHui; exact Hview | exact IHidle | exact Hstep |].
    split; [rewrite Hui; exact IHui | exact Hidle2].
Qed.

(** The failed listing, one click later. *)
Lemma client_status_view_is_final_witness :
  client_status_view thirteen_failed = true
  /\ client_idle {| CP.ui := thirteen_failed; CP.inflight := [[]] |}
  /\ CP.ui {| CP.ui := client_clicked thirteen_failed [];
              CP.inflight := [[]] |}
     = thirteen_failed.
Proof.
  assert (Hidle : client_idle {| CP.ui := thirteen_failed;
                                 CP.inflight := [[]] |})
    by (repeat constructor).
  assert (Hstep : CP.sys_step
                    {| CP.ui := thirteen_failed; CP.inflight := [[]] |}
                    {| CP.ui := client_clicked thirteen_failed [];
                       CP.inflight := [[]] |}).
  { apply (CP.user_click {| CP.ui := thirteen_failed; CP.inflight := [[]] |}
                         [] []). reflexivity. }
  destruct (client_status_view_is_final
              {| CP.ui := thirteen_failed; CP.inflight := [[]] |}
              {| CP.ui := client_clicked thirteen_failed [];
                 CP.inflight := [[]] |}
              eq_refl Hidle
              (Relation_Operators.rtn1_trans _ _ _ _ _ Hstep
                 (Relation_Operators.rtn1_refl _ _ _))) as [Hui _].
  split; [reflexivity|]. split; [exact Hidle | exact Hui].
Defined.

(** ** Search and sort changes *)

Lemma deps_changed_iff (s s' : SP.State) :
  SP.deps_changed s s' = true
  <-> (SP.currentPage s <> SP.currentPage s'
       \/ SP.searchQuery s <> SP.searchQuery s'
       \/ SP.sortBy s <> SP.sortBy s'
       \/ SP.sortOrder s <> SP.sortOrder s').
Proof.
  unfold SP.deps_changed.
  destruct (Z.eqb_spec (SP.currentPage s) (SP.currentPage s'));
    destruct (String.eqb_spec (SP.searchQuery s) (SP.searchQuery s'));
    destruct (String.eqb_spec (SP.sortBy s) (SP.sortBy s'));
    destruct (String.eqb_spec (SP.sortOrder s) (SP.sortOrder s'));
    cbn; split; try tauto; try discriminate; intros _; tauto.
Qed.

(** X10. A change of the search box starts a request exactly when the text
    differs from the current one or the page is not 1; typing the text already
    searched on page 1 starts none.  The request asks for the first page (skip
    0): of the search when the text is not empty, of the plain listing when
    the box was cleared, with the sort field and order kept. *)
Theorem search_change_requests_first_page
    (s : SP.State) (value : string) (o : outcome SP.Data.t)
    (pending : list (list (step SP.setter))) :
  let s' := SP.run (calls (SP.handleSearchChange value)) s in
  (SP.deps_changed s s' = true
   <-> (value <> SP.searchQuery s \/ SP.currentPage s <> 1))
  /\ (value = SP.searchQuery s -> SP.currentPage s = 1 ->
      SP.commit s s' o pending = {| SP.ui := s'; SP.inflight := pending |})
  /\ (value <> SP.searchQuery s \/ SP.currentPage s <> 1 ->
      SP.commit s s' o pending = SP.start_fetch s' o pending
      /\ requested (SP.fetchRecipes s' o) = Some (SP.url s'))
  /\ SP.skip s' = 0
  /\ (value <> "" ->
      SP.url s'
      = "https://dummyjson.com/recipes/search?q=" ++ value
        ++ "&limit=6&skip=0&sortBy=" ++ SP.sortBy s
        ++ "&order=" ++ SP.sortOrder s)
  /\ (value = "" ->
      SP.url s'
      = "https://dummyjson.com/recipes?limit=6&skip=0&sortBy=" ++ SP.sortBy s
        ++ "&order=" ++ SP.sortOrder s).
Proof.
  intros s'.
  assert (Hp : SP.currentPage s' = 1) by (destruct s; reflexivity).
  assert (Hq : SP.searchQuery s' = value) by (destruct s; reflexivity).
  assert (Hb : SP.sortBy s' = SP.sortBy s) by (destruct s; reflexivity).
  assert (Ho : SP.sortOrder s' = SP.sortOrder s) by (destruct s; reflexivity).
  assert (Hiff : SP.deps_changed s s' = true
                 <-> (value <> SP.searchQuery s \/ SP.currentPage s <> 1)).
  { rewrite deps_changed_iff, Hp, Hq, Hb, Ho. split.
    - intros [H | [H | [H | H]]]; try congruence; [right | left]; congruence.
    - intros [H | H]; [right; left | left]; congruence. }
  split; [exact Hiff|]. split; [|split; [|split; [|split]]].
  - intros Hv H1. unfold SP.commit.
    destruct (SP.deps_changed s s'); [|reflexivity].
    destruct (proj1 Hiff eq_refl); congruence.
  - intros Hd. unfold SP.commit. rewrite (proj2 Hiff Hd).
    split; reflexivity.
  - unfold SP.skip. rewrite Hp. reflexivity.
  - intros Hv. unfold SP.url, SP.skip. rewrite Hp, Hq, Hb, Ho.
    destruct value; [congruence | reflexivity].
  - intros ->. unfold SP.url, SP.skip. rewrite Hp, Hq, Hb, Ho. reflexivity.
Qed.

(** Typing "pasta" on page 2 of the search for "pizza". *)
Lemma search_change_requests_first_page_witness :
  "pasta" <> SP.searchQuery browsing
  /\ SP.deps_changed browsing
       (SP.run (calls (SP.handleSearchChange "pasta")) browsing) = true
  /\ SP.url (SP.run (calls (SP.handleSearchChange "pasta")) browsing)
     = "https://dummyjson.com/recipes/search?q=pasta&limit=6&skip=0&sortBy=name&order=asc".
Proof.
  assert (Hv : "pasta" <> SP.searchQuery browsing) by discriminate.
  pose proof (search_change_requests_first_page
                browsing "pasta" (Resolved failed_500) []) as H.
  cbv zeta in H. destruct H as (Hiff & _ & _ & _ & Hurl & _).
  split; [exact Hv|]. split; [exact (proj2 Hiff (or_introl Hv))|].
  apply Hurl. discriminate.
Defined.

(** X11. The two sort controls accept the values of their options and no other.
    Choosing a sort field or order writes that one cell: unlike a search
    change it keeps the page, and it keeps the search text; it starts a
    request exactly when the value chosen differs from the current one. *)
Theorem sort_change_keeps_page (s : SP.State) (value : string) :
  SP.loading s = false ->
  JS.truthy_opt (SP.error s) = false ->
  (change (SP.App s) [2; 1; 0]%nat value
   = if existsb (String.eqb value) ["name"; "rating"; "difficulty"]
     then Some [SP.setSortBy (Value value)] else None)
  /\ (change (SP.App s) [2; 1; 1]%nat value
      = if existsb (String.eqb value) ["asc"; "desc"]
        then Some [SP.setSortOrder (Value value)] else None)
  /\ (let s' := SP.run [SP.setSortBy (Value value)] s in
      SP.sortBy s' = value
      /\ SP.currentPage s' = SP.currentPage s
      /\ SP.searchQuery s' = SP.searchQuery s
      /\ SP.sortOrder s' = SP.sortOrder s
      /\ (SP.deps_changed s s' = true <-> value <> SP.sortBy s))
  /\ (let s' := SP.run [SP.setSortOrder (Value value)] s in
      SP.sortOrder s' = value
      /\ SP.currentPage s' = SP.currentPage s
      /\ SP.searchQuery s' = SP.searchQuery s
      /\ SP.sortBy s' = SP.sortBy s
      /\ (SP.deps_changed s s' = true <-> value <> SP.sortOrder s)).
Proof.
  intros Hl He. split; [|split; [|split]].
  - unfold SP.App. rewrite Hl, He. unfold change.
    cbn -[String.eqb]. unfold offers. cbn -[String.eqb].
    rewrite !String.eqb_refl. cbn -[String.eqb].
    rewrite (String.eqb_sym "name"), (String.eqb_sym "rating"),
      (String.eqb_sym "difficulty").
    reflexivity.
  - unfold SP.App. rewrite Hl, He. unfold change.
    cbn -[String.eqb]. unfold offers. cbn -[String.eqb].
    rewrite !String.eqb_refl. cbn -[String.eqb].
    rewrite (String.eqb_sym "asc"), (String.eqb_sym "desc").
    reflexivity.
  - cbv zeta. rewrite deps_changed_iff.
    destruct s; cbn. repeat split; try reflexivity.
    + intros [H | [H | [H | H]]]; congruence.
    + intros H. right. right. left. congruence.
  - cbv zeta. rewrite deps_changed_iff.
    destruct s; cbn. repeat split; try reflexivity.
    + intros [H | [H | [H | H]]]; congruence.
    + intros H. right. right. right. congruence.
Qed.

(** Choosing "rating" on page 2 of the search; "price" is not on offer. *)
Lemma sort_change_keeps_page_witness :
  SP.loading browsing = false
  /\ JS.truthy_opt (SP.error browsing) = false
  /\ change (SP.App browsing) [2; 1; 0]%nat "rating"
     = Some [SP.setSortBy (Value "rating")]
  /\ change (SP.App browsing) [2; 1; 0]%nat "price" = None
  /\ SP.currentPage (SP.run [SP.setSortBy (Value "rating")] browsing) = 2.
Proof.
  destruct (sort_change_keeps_page browsing "rating" eq_refl eq_refl)
    as (Hby & _ & Hstate & _).
  destruct (sort_change_keeps_page browsing "price" eq_refl eq_refl)
    as (Hno & _).
  cbv zeta in Hstate. destruct Hstate as (_ & Hp & _).
  split; [reflexivity|]. split; [reflexivity|].
  split; [exact Hby|]. split; [exact Hno | exact Hp].
Defined.

(** ** The pages of the client-paginated variant *)

Lemma slice_length_bound {A : Type} (l : list A) (a b d : Z) :
  0 <= d -> b = a + d -> Z.of_nat (List.length (JS.slice l a b)) <= d.
Proof.
  intros Hd ->. unfold JS.slice, JS.relative_index.
  pose proof (firstn_le_length
                (Z.to_nat
                   ((if a + d <? 0
                     then Z.max (Z.of_nat (List.length l) + (a + d)) 0
                     else Z.min (a + d) (Z.of_nat (List.length l)))
                    - (if a <? 0
                       then Z.max (Z.of_nat (List.length l) + a) 0
                       else Z.min a (Z.of_nat (List.length l)))))
                (skipn (Z.to_nat
                          (if a <? 0
                           then Z.max (Z.of_nat (List.length l) + a) 0
                           else Z.min a (Z.of_nat (List.length l)))) l)) as H.
  destruct (Z.ltb_spec (a + d) 0); destruct (Z.ltb_spec a 0); lia.
Qed.

(** X13. Client-paginated variant: whatever the page number, negative ones
    included, the view never shows more than six cards. *)
Theorem client_page_holds_at_most_six (c : CP.State) :
  (List.length (CP.currentRecipes c) <= 6)%nat
  /\ (List.length (children_of (CP.grid c)) <= 6)%nat.
Proof.
  assert (H : (List.length (CP.currentRecipes c) <= 6)%nat).
  { pose proof (slice_length_bound (CP.recipes c) (CP.indexOfFirstRecipe c)
                  (CP.indexOfLastRecipe c) 6 ltac:(lia)) as H.
    unfold CP.currentRecipes.
    unfold CP.indexOfFirstRecipe, CP.RECIPES_PER_PAGE in H |- *.
    specialize (H ltac:(lia)). lia. }
  split; [exact H|].
  unfold CP.grid. cbn [el children_of]. rewrite length_map. exact H.
Qed.

Lemma firstn_plus {A : Type} (n m : nat) (l : list A) :
  firstn (n + m) l = (firstn n l ++ firstn m (skipn n l))%list.
Proof.
  rewrite firstn_skipn_comm.
  rewrite <- (firstn_skipn n (firstn (n + m) l)) at 1.
  rewrite firstn_firstn. replace (Nat.min n (n + m)) with n by lia.
  reflexivity.
Qed.

Lemma concat_windows {A : Type} (l : list A) (k : nat) :
  List.concat (map (fun i => firstn 6 (skipn (6 * i) l)) (seq 0 k))
  = firstn (6 * k) l.
Proof.
  induction k as [|k IH]; [reflexivity|].
  rewrite seq_S, map_app, concat_app, IH. cbn [map List.concat plus].
  rewrite app_nil_r. replace (6 * S k)%nat with (6 * k + 6)%nat by lia.
  symmetry. apply firstn_plus.
Qed.

Lemma client_page_window (c : CP.State) (p : Z) :
  1 <= p ->
  client_page c p
  = firstn 6 (skipn (6 * Z.to_nat (p - 1)) (CP.recipes c)).
Proof.
  intros Hp. unfold client_page.
  rewrite client_currentRecipes_window by (destruct c; cbn; lia).
  destruct c; cbn [CP.apply CP.recipes CP.currentPage resolve].
  unfold CP.RECIPES_PER_PAGE. f_equal. f_equal. lia.
Qed.

(** X14. Client-paginated variant: the pages 1 to [totalPages], one after the
    other, are exactly the full list in its order, with no overlap and no
    gap; each of these pages shows at least one record, and every page past
    the last is empty. *)
Theorem client_pages_partition (c : CP.State) :
  List.concat (client_pages c (Z.to_nat (CP.totalPages c))) = CP.recipes c
  /\ (forall p, 1 <= p <= CP.totalPages c -> client_page c p <> [])
  /\ (forall p, CP.totalPages c < p -> client_page c p = []).
Proof.
  pose proof (Math_ceil_divide_spec
                (Z.of_nat (List.length (CP.recipes c))) 6) as Hceil.
  cbv zeta in Hceil.
  change (JS.Math_ceil (JS.divide (Z.of_nat (List.length (CP.recipes c))) 6))
    with (CP.totalPages c) in Hceil.
  pose proof (client_total_pages_nonnegative c) as Hnn.
  split; [|split].
  - unfold client_pages.
    rewrite (map_ext_in _ (fun i => firstn 6 (skipn (6 * i) (CP.recipes c)))).
    + rewrite concat_windows. apply firstn_all2. lia.
    + intros i _. rewrite client_page_window by lia.
      f_equal. f_equal. lia.
  - intros p Hp. rewrite client_page_window by lia.
    intros Hnil. apply (f_equal (@List.length _)) in Hnil.
    rewrite length_firstn, length_skipn in Hnil. cbn [List.length] in Hnil. lia.
  - intros p Hp. rewrite client_page_window by lia.
    rewrite skipn_all2 by lia. apply firstn_nil.
Qed.

(** Thirteen records: three pages, the third one holding the thirteenth. *)
Lemma client_pages_partition_witness :
  1 <= 3 <= CP.totalPages thirteen_on_page_3
  /\ client_page thirteen_on_page_3 3 <> []
  /\ client_page thirteen_on_page_3 4 = [].
Proof.
  destruct (client_pages_partition thirteen_on_page_3) as (_ & Hin & Hout).
  assert (H3 : 1 <= 3 <= CP.totalPages thirteen_on_page_3)
    by (split; discriminate).
  split; [exact H3|]. split; [exact (Hin 3 H3)|].
  apply Hout. reflexivity.
Defined.

(** ** User events and the page range *)

Lemma server_run_keeps_page_in_range (t : Z) (us : list SP.setter) :
  Forall (keeps_page_in_range t) us ->
  forall s,
    1 <= SP.currentPage s <= t -> SP.totalPages s = t ->
    1 <= SP.currentPage (SP.run us s) <= t
    /\ SP.totalPages (SP.run us s) = t.
Proof.
  induction 1 as [|u us Hu _ IH]; intros s Hp Ht; [split; assumption|].
  change (SP.run (u :: us) s) with (SP.run us (SP.apply u s)).
  destruct (Hu s Hp Ht) as [Hp' Ht']. apply IH; assumption.
Qed.

Lemma server_app_keeps_page_in_range (s : SP.State) :
  all_handlers (keeps_page_in_range (SP.totalPages s)) (SP.App s).
Proof.
  apply server_app_handlers.
  - intros value. cbn.
    repeat (apply Forall_cons; [intros [] ? ?; cbn in *; lia|]).
    apply Forall_nil.
  - intros value [] ? ?; cbn in *; lia.
  - intros value [] ? ?; cbn in *; lia.
  - intros recipe. apply Forall_cons; [|apply Forall_nil].
    intros [] ? ?; cbn in *; lia.
  - apply Forall_cons; [|apply Forall_nil]. intros [] ? ?; cbn in *; lia.
  - intros Hlt. split; (apply Forall_cons; [|apply Forall_nil]);
      intros [] ? ?; cbn in *; unfold JS.Math_max, JS.Math_min; lia.
Qed.

(** X15. Server-paginated variant: no user event takes the page out of range.
    When the page is within 1..[totalPages], it still is after any click and
    after any change of the search box or of a sort control, wherever the
    event lands, and the total is untouched; only a response can move the
    total. *)
Theorem user_events_keep_page_in_range
    (s : SP.State) (p : list nat) (value : string) :
  1 <= SP.currentPage s <= SP.totalPages s ->
  (1 <= SP.currentPage (server_clicked s p) <= SP.totalPages s
   /\ SP.totalPages (server_clicked s p) = SP.totalPages s)
  /\ (1 <= SP.currentPage (server_changed s p value) <= SP.totalPages s
      /\ SP.totalPages (server_changed s p value) = SP.totalPages s).
Proof.
  intros Hp. split.
  - unfold server_clicked.
    destruct (click (SP.App s) p) as [us|] eqn:Hc; [|split; [exact Hp | reflexivity]].
    apply server_run_keeps_page_in_range; [|exact Hp | reflexivity].
    eapply click_all_handlers;
      [apply server_app_keeps_page_in_range | exact Hc].
  - unfold server_changed.
    destruct (change (SP.App s) p value) as [us|] eqn:Hc;
      [|split; [exact Hp | reflexivity]].
    apply server_run_keeps_page_in_range; [|exact Hp | reflexivity].
    eapply change_all_handlers;
      [apply server_app_keeps_page_in_range | exact Hc].
Qed.

(** "Next" on page 2 of 3, and a new search typed there. *)
Lemma user_events_keep_page_in_range_witness :
  1 <= SP.currentPage browsing <= SP.totalPages browsing
  /\ SP.currentPage (server_clicked browsing [pagination_index; 2%nat]) = 3
  /\ 1 <= SP.currentPage (server_changed browsing [2; 0]%nat "pasta") <= 3.
Proof.
  assert (Hp : 1 <= SP.currentPage browsing <= SP.totalPages browsing)
    by (split; discriminate).
  destruct (user_events_keep_page_in_range
              browsing [2; 0]%nat "pasta" Hp) as [_ [Hchanged _]].
  split; [exact Hp|]. split; [reflexivity | exact Hchanged].
Defined.

(** ** Round trips *)



(** X17. Server-paginated variant: with nothing selected, clicking a card and
    then closing the overlay, by its button or by its background, brings back
    the very same state. *)
Theorem select_then_close_restores
    (s : SP.State) (i : nat) (recipe : SP.Recipe) :
  SP.loading s = false ->
  JS.truthy_opt (SP.error s) = false ->
  nth_error (SP.recipes s) i = Some recipe ->
  SP.selectedRecipe s = None ->
  let s' := server_clicked s [3%nat; i] in
  server_clicked s' [overlay_index s'; 0; 0]%nat = s
  /\ server_clicked s' [overlay_index s'] = s.
Proof.
  intros Hl He Hi Hnone s'.
  assert (Hs' : s' = SP.run (SP.onCardClick recipe) s).
  { unfold s', server_clicked.
    rewrite (server_click_in_card s i recipe) by assumption.
    rewrite card_click_itself. reflexivity. }
  assert (Hl' : SP.loading s' = false)
    by (rewrite Hs'; destruct s; exact Hl).
  assert (He' : JS.truthy_opt (SP.error s') = false)
    by (rewrite Hs'; destruct s; exact He).
  assert (Hsel : SP.selectedRecipe s' = Some recipe)
    by (rewrite Hs'; destruct s; reflexivity).
  destruct (overlay_behaviour s' recipe Hl' He' Hsel)
    as (_ & _ & _ & Hback & Hbutton & _).
  assert (Hclose : SP.run SP.onClose s' = s).
  { rewrite Hs'. destruct s; cbn in Hnone; subst; reflexivity. }
  rewrite Hbutton, Hback, Hclose. split; reflexivity.
Qed.

Lemma select_then_close_restores_witness :
  SP.loading browsing = false
  /\ JS.truthy_opt (SP.error browsing) = false
  /\ nth_error (SP.recipes browsing) 0 = Some margherita
  /\ SP.selectedRecipe browsing = None
  /\ server_clicked (server_clicked browsing [3; 0]%nat) [5; 0; 0]%nat
     = browsing.
Proof.
  pose proof (select_then_close_restores browsing 0 margherita
                eq_refl eq_refl eq_refl eq_refl) as H.
  cbv zeta in H. destruct H as [Hbutton _].
  split; [reflexivity|]. split; [reflexivity|]. split; [reflexivity|].
  split; [reflexivity | exact Hbutton].
Defined.

(** ** The page invariants at a concrete state *)

(** After the mount and the 500 answer to its request. *)
Lemma server_page_at_least_one_witness :
  SP.reachable
    (SP.commit (SP.ui (SP.mount (Resolved failed_500)))
       (SP.run (on_response (SP.fetchRecipes SP.initial (Resolved failed_500)))
               (SP.ui (SP.mount (Resolved failed_500))))
       (Resolved failed_500) [[]])
  /\ 1 <= SP.currentPage
            (SP.run (on_response
                       (SP.fetchRecipes SP.initial (Resolved failed_500)))
                    (SP.ui (SP.mount (Resolved failed_500)))).
Proof.
  assert (Hy : SP.reachable
                 (SP.commit (SP.ui (SP.mount (Resolved failed_500)))
                    (SP.run (on_response
                               (SP.fetchRecipes SP.initial
                                                (Resolved failed_500)))
                            (SP.ui (SP.mount (Resolved failed_500))))
                    (Resolved failed_500) [[]])).
  { eapply SP.reach_step; [apply (SP.reach_mount (Resolved failed_500))|].
    apply (SP.resume (SP.mount (Resolved failed_500)) [] []
             (snd (advance (SP.fetchRecipes SP.initial (Resolved failed_500))))
             (Resolved failed_500)).
    reflexivity. }
  split; [exact Hy|]. exact (server_page_at_least_one _ Hy).
Defined.

(** ** The page range of the client-paginated variant *)

Lemma client_fetch_page_untouched (o : outcome CP.Data.t) :
  Forall client_page_untouched (all_calls (CP.fetchRecipes o)).
Proof.
  assert (Hcatch : forall e, Forall client_page_untouched
                     (all_calls (CP.catch e ++ CP.finally))).
  { intros e. cbn.
    repeat (apply Forall_cons; [intros []; reflexivity|]). apply Forall_nil. }
  unfold CP.fetchRecipes. cbn [app all_calls flat_map].
  apply Forall_cons; [intros []; reflexivity|].
  destruct o as [e|response]; [apply Hcatch|].
  destruct (negb (ok response)); [apply Hcatch|].
  cbn [app all_calls flat_map].
  destruct (json response) as [e|data]; [apply Hcatch|].
  cbn. repeat (apply Forall_cons; [intros []; reflexivity|]). apply Forall_nil.
Qed.

Lemma client_run_page_untouched (us : list CP.setter) :
  Forall client_page_untouched us ->
  forall c, CP.currentPage (CP.run us c) = CP.currentPage c.
Proof.
  induction 1 as [|u us Hu _ IH]; intros c; [reflexivity|].
  change (CP.run (u :: us) c) with (CP.run us (CP.apply u c)).
  rewrite IH. apply Hu.
Qed.

(** After either [await] the run makes its last calls, or none and waits for
    the body. *)
Lemma client_suspended_run (o : outcome CP.Data.t) (k : list (step CP.setter)) :
  k = client_rest1 o \/ k = client_rest2 o ->
  Forall client_page_untouched (fst (advance k))
  /\ (snd (advance k) = []
      \/ (fst (advance k) = [] /\ snd (advance k) = client_rest2 o)).
Proof.
  pose proof (advance_calls client_page_untouched _
                (client_fetch_page_untouched o)) as [_ H1].
  fold (client_rest1 o) in H1.
  pose proof (advance_calls client_page_untouched _ H1) as [H1a H2].
  fold (client_rest2 o) in H2.
  pose proof (advance_calls client_page_untouched _ H2) as [H2a _].
  intros [-> | ->].
  - split; [exact H1a|].
    unfold client_rest2, client_rest1, CP.fetchRecipes.
    destruct o as [e|r]; [left; reflexivity|].
    destruct (negb (ok r)); [left; reflexivity|].
    right. split; reflexivity.
  - split; [exact H2a|]. left.
    unfold client_rest2, client_rest1, CP.fetchRecipes.
    destruct o as [e|r]; [reflexivity|].
    destruct (negb (ok r)); [reflexivity|].
    destruct (json r); reflexivity.
Qed.

Lemma client_run_keeps_range (t : Z) (us : list CP.setter) :
  Forall (keeps_client_range t) us ->
  forall c,
    CP.recipes (CP.run us c) = CP.recipes c
    /\ (0 <= CP.currentPage c <= Z.max 1 t ->
        0 <= CP.currentPage (CP.run us c) <= Z.max 1 t).
Proof.
  induction 1 as [|u us Hu _ IH]; intros c; [split; [reflexivity | tauto]|].
  change (CP.run (u :: us) c) with (CP.run us (CP.apply u c)).
  destruct (IH (CP.apply u c)) as [Hr Hp]. destruct (Hu c) as [Hr' Hp'].
  split; [congruence | tauto].
Qed.

Lemma client_app_keeps_range (c : CP.State) :
  all_handlers (keeps_client_range (CP.totalPages c)) (CP.App c).
Proof.
  pose proof (client_total_pages_nonnegative c) as Ht.
  apply client_app_handlers; (apply Forall_cons; [|apply Forall_nil]);
    intros x; (split; [destruct x; reflexivity|]);
    destruct x; cbn [CP.apply CP.currentPage resolve];
    unfold JS.Math_max, JS.Math_min; lia.
Qed.

Lemma client_range_step (o : outcome CP.Data.t) (y y' : CP.System) :
  client_range_invariant o y -> CP.sys_step y y' ->
  client_range_invariant o y'.
Proof.
  intros Hinv Hstep.
  destruct Hstep as [y p us Hclick | y pre post k Hk].
  - destruct Hinv as [[Hdone Hrange] | [Hui Hflight]].
    + left. split; [exact Hdone|]. cbn [CP.ui].
      pose proof (click_all_handlers _ _ _ _ (client_app_keeps_range (CP.ui y))
                    Hclick) as Hus.
      destruct (client_run_keeps_range _ us Hus (CP.ui y)) as [Hr Hp].
      assert (Ht : CP.totalPages (CP.run us (CP.ui y))
                   = CP.totalPages (CP.ui y))
        by (unfold CP.totalPages; rewrite Hr; reflexivity).
      rewrite Ht. apply Hp, Hrange.
    + right. split; [|exact Hflight]. cbn [CP.ui].
      assert (Hview : client_status_view (CP.ui y) = true)
        by (rewrite Hui; reflexivity).
      rewrite (proj1 (client_status_view_silent _ p Hview) us Hclick).
      exact Hui.
  - destruct Hinv as [[Hdone Hrange] | [Hui Hflight]].
    + left. rewrite Hk in Hdone.
      destruct pre as [|k1 pre].
      * cbn in Hdone. injection Hdone as -> ->.
        split; [reflexivity | exact Hrange].
      * cbn in Hdone. injection Hdone as _ Hpre.
        destruct pre; discriminate.
    + assert (Hshape : pre = [] /\ post = []
                       /\ (k = client_rest1 o \/ k = client_rest2 o)).
      { rewrite Hk in Hflight.
        destruct pre as [|k1 pre].
        - cbn in Hflight.
          destruct Hflight as [Hf | Hf]; injection Hf as -> ->; tauto.
        - destruct Hflight as [Hf | Hf]; cbn in Hf; injection Hf as _ Hpre;
            destruct pre; discriminate. }
      destruct Hshape as (-> & -> & Hkk).
      destruct (client_suspended_run o k Hkk) as [Hpage [Hend | [Hnone Hnext]]].
      * left. cbn [app CP.ui CP.inflight]. rewrite Hend.
        split; [reflexivity|].
        rewrite (client_run_page_untouched _ Hpage), Hui.
        cbn [client_loading_state CP.currentPage]. 
        change (CP.currentPage client_loading_state) with 1. lia.
      * right. cbn [app CP.ui CP.inflight]. rewrite Hnone, Hnext.
        split; [exact Hui | right; reflexivity].
Qed.

Lemma client_range_reachable (o : outcome CP.Data.t) (y : CP.System) :
  CP.reachable o y -> client_range_invariant o y.
Proof.
  intros Hy. induction Hy as [| y y' _ IH Hstep].
  - right. split; [|left; reflexivity].
    unfold CP.mount, client_loading_state, CP.fetchRecipes. reflexivity.
  - eapply client_range_step; eassumption.
Qed.

(** X2. Client-paginated variant: in every reachable state the page number lies
    between 0 and the larger of 1 and [totalPages]: the user can never move
    past the last page. *)
Theorem client_page_within_range (o : outcome CP.Data.t) (y : CP.System) :
  CP.reachable o y ->
  0 <= CP.currentPage (CP.ui y) <= Z.max 1 (CP.totalPages (CP.ui y)).
Proof.
  intros Hy.
  destruct (client_range_reachable o y Hy) as [[_ Hrange] | [Hui _]];
    [exact Hrange|].
  rewrite Hui. cbn. lia.
Qed.

(** Right after the mount. *)
Lemma client_page_within_range_witness :
  CP.reachable empty_listing (CP.mount empty_listing)
  /\ 0 <= CP.currentPage (CP.ui (CP.mount empty_listing)) <= 1.
Proof.
  split; [apply CP.reach_mount|].
  exact (client_page_within_range empty_listing (CP.mount empty_listing)
           (CP.reach_mount empty_listing)).
Defined.

(** ** Events, with what a control can report *)

Section Reactions.

Context {U : Type} (Qc Qch : U -> Prop).

Lemma all_reactions_element (tag : string) (attrs : list (string * string))
    (d : bool) (oc : option (handler U)) (och : option (string -> handler U))
    (ch : list (vnode U)) :
  all_reactions Qc Qch (Element tag attrs d oc och ch)
  <-> (match oc with Some h => Forall Qc (calls h) | None => True end
       /\ match och with
          | Some f =>
              forall value,
                offers (Element tag attrs d oc och ch) value = true ->
                Forall Qch (calls (f value))
          | None => True
          end
       /\ each_reacting Qc Qch ch).
Proof. reflexivity. Qed.

Lemma each_reacting_Forall (l : list (vnode U)) :
  each_reacting Qc Qch l <-> Forall (all_reactions Qc Qch) l.
Proof.
  induction l as [|c l IH]; cbn.
  - split; constructor.
  - fold (each_reacting Qc Qch l). rewrite IH. split.
    + intros [Hc Hl]. constructor; assumption.
    + intros H. inversion H; subst. split; assumption.
Qed.

Lemma all_reactions_child (t : vnode U) (i : nat) (c : vnode U) :
  all_reactions Qc Qch t -> nth_error (children_of t) i = Some c ->
  all_reactions Qc Qch c.
Proof.
  destruct t as [s|tag attrs d oc och ch]; cbn [children_of].
  - destruct i; discriminate.
  - intros H Hc.
    pose proof (proj1 (all_reactions_element _ _ _ _ _ _) H) as (_ & _ & H').
    pose proof (proj1 (each_reacting_Forall _) H') as HF.
    rewrite Forall_forall in HF.
    apply HF. eapply nth_error_In; eassumption.
Qed.

Lemma all_reactions_node_at (p : list nat) :
  forall (t target : vnode U),
    all_reactions Qc Qch t -> node_at p t = Some target ->
    all_reactions Qc Qch target.
Proof.
  induction p as [|i p IH]; intros t target Ht Hp; cbn in Hp.
  - injection Hp as <-. exact Ht.
  - destruct (nth_error (children_of t) i) as [c|] eqn:Hc; [|discriminate].
    apply (IH c); [|exact Hp]. eapply all_reactions_child; eassumption.
Qed.

Lemma all_reactions_path (p : list nat) :
  forall (t : vnode U) (path : list (vnode U)),
    all_reactions Qc Qch t ->
    propagation_path p t = Some path ->
    Forall (all_reactions Qc Qch) path.
Proof.
  induction p as [|i p IH]; intros t path Ht Hp; cbn in Hp.
  - destruct (is_element t); [|discriminate]. injection Hp as <-.
    constructor; [exact Ht | constructor].
  - destruct (nth_error (children_of t) i) as [c|] eqn:Hc; [|discriminate].
    destruct (propagation_path p c) as [below|] eqn:Hb; [|discriminate].
    injection Hp as <-. apply Forall_app. split.
    + apply (IH c); [|exact Hb]. eapply all_reactions_child; eassumption.
    + constructor; [exact Ht | constructor].
Qed.

Lemma click_all_reactions (t : vnode U) (p : list nat) (us : list U) :
  all_reactions Qc Qch t -> click t p = Some us -> Forall Qc us.
Proof.
  intros Ht. unfold click.
  destruct (propagation_path p t) as [path|] eqn:Hp; [|discriminate].
  destruct (existsb is_disabled path).
  - intros [= <-]. constructor.
  - intros [= <-]. apply bubble_Forall.
    apply Forall_map.
    eapply Forall_impl; [|eapply all_reactions_path; eassumption].
    intros [s|tag attrs d [h|] och ch]; cbn; try constructor.
    intros (H & _). exact H.
Qed.

Lemma change_all_reactions (t : vnode U) (p : list nat) (value : string)
    (us : list U) :
  all_reactions Qc Qch t -> change t p value = Some us -> Forall Qch us.
Proof.
  intros Ht. unfold change.
  destruct (node_at p t) as [target|] eqn:Hp; [|discriminate].
  pose proof (all_reactions_node_at p t target Ht Hp) as Htarget.
  destruct (is_element target); [|discriminate]. cbn [andb].
  destruct (offers target value) eqn:Hoffers; [|discriminate].
  destruct (is_disabled target).
  - intros [= <-]. constructor.
  - intros [= <-].
    destruct target as [s|tag attrs d oc [f|] ch]; cbn; try constructor.
    destruct Htarget as (_ & H & _). apply H, Hoffers.
Qed.

End Reactions.

(** What holds of every handler holds in particular of the reactions. *)
Lemma all_handlers_reactions {U : Type} (Q : U -> Prop) (t : vnode U) :
  all_handlers Q t -> all_reactions Q Q t.
Proof.
  induction t as [s | tag attrs d oc och ch IH] using vnode_induction;
    [intros _; exact I|].
  intros H.
  pose proof (proj1 (all_handlers_element Q _ _ _ _ _ _) H) as (Hc & Hch & Hkids).
  apply all_reactions_element. split; [exact Hc|]. split.
  - destruct och as [f|]; [|exact I]. intros value _. apply Hch.
  - apply each_reacting_Forall. apply each_child_Forall in Hkids.
    rewrite Forall_forall in IH, Hkids |- *.
    intros c Hin. apply IH; [exact Hin | apply Hkids, Hin].
Qed.

(** ** The sort field and order stay among the options *)

Lemma sort_field_offered (s : SP.State) (value : string) :
  offers (SP.select (SP.sortBy s)
            (fun v => [Set_ (SP.setSortBy (Value v))])
            [ SP.option_ "name" "Nome"; SP.option_ "rating" "Nota";
              SP.option_ "difficulty" "Dificuldade" ]) value = true ->
  In value sort_fields.
Proof.
  unfold offers. cbn -[String.eqb]. rewrite !String.eqb_refl.
  cbn -[String.eqb]. rewrite !orb_true_iff, !String.eqb_eq.
  unfold sort_fields. cbn. intuition congruence.
Qed.

Lemma sort_order_offered (s : SP.State) (value : string) :
  offers (SP.select (SP.sortOrder s)
            (fun v => [Set_ (SP.setSortOrder (Value v))])
            [ SP.option_ "asc" "Ascendente";
              SP.option_ "desc" "Descendente" ]) value = true ->
  In value sort_orders.
Proof.
  unfold offers. cbn -[String.eqb]. rewrite !String.eqb_refl.
  cbn -[String.eqb]. rewrite !orb_true_iff, !String.eqb_eq.
  unfold sort_orders. cbn. intuition congruence.
Qed.

Lemma query_untouched_keeps_sort (u : SP.setter) :
  query_untouched u -> keeps_sort_options u.
Proof.
  intros Hu s [Hb Ho]. destruct (Hu s) as (_ & _ & Eb & Eo & _).
  unfold sorted_by_option. rewrite Eb, Eo. split; assumption.
Qed.

Lemma server_controls_sort_reactions (s : SP.State) :
  all_reactions keeps_sort_options keeps_sort_options (SP.controls s).
Proof.
  unfold SP.controls, el. apply all_reactions_element.
  split; [exact I | split; [exact I|]].
  apply each_reacting_Forall. constructor; [|constructor; [|constructor]].
  - apply all_reactions_element. split; [exact I|]. split; [|exact I].
    intros value _. cbn.
    repeat (apply Forall_cons; [intros [] H; exact H|]). apply Forall_nil.
  - apply all_reactions_element. split; [exact I | split; [exact I|]].
    apply each_reacting_Forall. constructor; [|constructor; [|constructor]].
    + apply all_reactions_element. split; [exact I|]. split.
      * intros value Hoffers. apply sort_field_offered in Hoffers.
        cbn. apply Forall_cons; [|apply Forall_nil].
        intros [] [_ Ho]. split; [exact Hoffers | exact Ho].
      * cbn. repeat split.
    + apply all_reactions_element. split; [exact I|]. split.
      * intros value Hoffers. apply sort_order_offered in Hoffers.
        cbn. apply Forall_cons; [|apply Forall_nil].
        intros [] [Hb _]. split; [exact Hb | exact Hoffers].
      * cbn. repeat split.
Qed.

Lemma server_app_sort_reactions (s : SP.State) :
  all_reactions keeps_sort_options keeps_sort_options (SP.App s).
Proof.
  unfold SP.App.
  destruct (SP.loading s); [cbn; repeat split|].
  destruct (JS.truthy_opt (SP.error s)); [cbn; repeat split|].
  unfold el. apply all_reactions_element.
  split; [exact I | split; [exact I|]].
  apply each_reacting_Forall. unfold SP.app_children.
  apply Forall_app. split; [|apply Forall_app; split].
  - constructor; [cbn; repeat split|]. constructor; [cbn; repeat split|].
    constructor; [apply server_controls_sort_reactions|].
    constructor; [|constructor].
    apply all_handlers_reactions, server_grid_handlers.
    intros recipe. apply Forall_cons; [|apply Forall_nil].
    intros [] H; exact H.
  - destruct (1 <? SP.totalPages s); [|constructor].
    constructor; [|constructor].
    cbn. repeat split;
      (apply Forall_cons; [intros [] H; exact H | apply Forall_nil]).
  - destruct (SP.selectedRecipe s) as [recipe|]; [|constructor].
    constructor; [|constructor].
    apply all_handlers_reactions, detail_handlers.
    apply Forall_cons; [|apply Forall_nil]. intros [] H; exact H.
Qed.

Lemma server_run_keeps_sort (us : list SP.setter) :
  Forall keeps_sort_options us ->
  forall s, sorted_by_option s -> sorted_by_option (SP.run us s).
Proof.
  induction 1 as [|u us Hu _ IH]; intros s Hs; [exact Hs|].
  change (SP.run (u :: us) s) with (SP.run us (SP.apply u s)).
  apply IH, Hu, Hs.
Qed.

Lemma server_start_fetch_keeps_sort (s : SP.State) (o : outcome SP.Data.t)
    (pending : list (list (step SP.setter))) :
  sorted_by_option s ->
  sorted_by_option (SP.ui (SP.start_fetch s o pending)).
Proof.
  intros Hs. unfold SP.start_fetch.
  destruct (advance_calls query_untouched _
              (server_fetch_query_untouched s o)) as [H1 _].
  destruct (advance (SP.fetchRecipes s o)) as [us rest]. cbn in *.
  apply server_run_keeps_sort; [|exact Hs].
  eapply Forall_impl; [|exact H1]. apply query_untouched_keeps_sort.
Qed.

Lemma server_commit_keeps_sort (prev next : SP.State) (o : outcome SP.Data.t)
    (pending : list (list (step SP.setter))) :
  sorted_by_option next ->
  sorted_by_option (SP.ui (SP.commit prev next o pending)).
Proof.
  intros Hs. unfold SP.commit.
  destruct (SP.deps_changed prev next); [|exact Hs].
  apply server_start_fetch_keeps_sort, Hs.
Qed.

(** X12. Server-paginated variant: in every reachable state the sort field is
    one of "name", "rating", "difficulty" and the sort order one of "asc",
    "desc": the two [select]s report nothing but their options, and nothing
    else writes these cells. *)
Theorem server_sort_stays_among_options (y : SP.System) :
  SP.reachable y ->
  In (SP.sortBy (SP.ui y)) ["name"; "rating"; "difficulty"]
  /\ In (SP.sortOrder (SP.ui y)) ["asc"; "desc"].
Proof.
  intros Hy. change (sorted_by_option (SP.ui y)).
  induction Hy as [o | y y' Hy IH Hstep].
  - apply server_start_fetch_keeps_sort. split; cbn; auto.
  - destruct Hstep as [y p us o Hclick | y p value us o Hchange
                      | y pre post k o Hk].
    + apply server_commit_keeps_sort.
      apply server_run_keeps_sort; [|exact IH].
      eapply click_all_reactions;
        [apply server_app_sort_reactions | exact Hclick].
    + apply server_commit_keeps_sort.
      apply server_run_keeps_sort; [|exact IH].
      eapply change_all_reactions;
        [apply server_app_sort_reactions | exact Hchange].
    + apply server_commit_keeps_sort.
      apply server_run_keeps_sort; [|exact IH].
      pose proof (server_inflight_calls query_untouched
                    server_fetch_query_untouched y Hy) as Hall.
      rewrite Hk in Hall. apply Forall_app in Hall.
      destruct Hall as [_ Hrest].
      inversion Hrest as [|? ? Hkq _]; subst.
      destruct (advance_calls query_untouched k Hkq) as [H1 _].
      eapply Forall_impl; [|exact H1]. apply query_untouched_keeps_sort.
Qed.

(** After the mount, the user chooses "rating". *)
Lemma server_sort_stays_among_options_witness :
  SP.reachable
    (SP.commit (SP.ui (SP.mount (Resolved failed_500)))
       (server_changed (SP.ui (SP.mount (Resolved failed_500)))
                       [2; 1; 0]%nat "rating")
       (Resolved failed_500)
       (SP.inflight (SP.mount (Resolved failed_500))))
  /\ SP.sortBy (server_changed (SP.ui (SP.mount (Resolved failed_500)))
                               [2; 1; 0]%nat "rating") = "rating"
  /\ In "rating" ["name"; "rating"; "difficulty"].
Proof.
  assert (Hy : SP.reachable
                 (SP.commit (SP.ui (SP.mount (Resolved failed_500)))
                    (server_changed (SP.ui (SP.mount (Resolved failed_500)))
                                    [2; 1; 0]%nat "rating")
                    (Resolved failed_500)
                    (SP.inflight (SP.mount (Resolved failed_500))))).
  { eapply SP.reach_step; [apply (SP.reach_mount (Resolved failed_500))|].
    apply (SP.user_change (SP.mount (Resolved failed_500))
             [2; 1; 0]%nat "rating" [SP.setSortBy (Value "rating")]
             (Resolved failed_500)).
    reflexivity. }
  split; [exact Hy|]. split; [reflexivity|].
  exact (proj1 (server_sort_stays_among_options _ Hy)).
Defined.

(** ** What the user sees *)

(** X18. Client-paginated variant: until its request has ended, the state is the
    one the mount left (empty list, loading, no error, page 1), the view is
    the loading message alone, and no click does anything. *)
Theorem client_loading_until_request_ends
    (o : outcome CP.Data.t) (y : CP.System) :
  CP.reachable o y ->
  CP.inflight y <> [[]] ->
  CP.ui y = {| CP.recipes := []; CP.loading := true; CP.error := None;
               CP.currentPage := 1 |}
  /\ CP.App (CP.ui y) = el "div" "status-message" [Text "Carregando receitas..."]
  /\ (forall p us, click (CP.App (CP.ui y)) p = Some us -> us = []).
Proof.
  intros Hy Hpending.
  destruct (client_range_reachable o y Hy) as [[Hdone _] | [Hui _]];
    [contradiction|].
  split; [exact Hui|]. split; [rewrite Hui; reflexivity|].
  intros p us Hclick.
  apply (proj1 (client_status_view_silent (CP.ui y) p
                  ltac:(rewrite Hui; reflexivity)) us Hclick).
Qed.

(** Right after the mount, the 500 answer still to come. *)
Lemma client_loading_until_request_ends_witness :
  CP.reachable (Resolved client_failed_500)
               (CP.mount (Resolved client_failed_500))
  /\ CP.inflight (CP.mount (Resolved client_failed_500)) <> [[]]
  /\ CP.loading (CP.ui (CP.mount (Resolved client_failed_500))) = true.
Proof.
  assert (Hpending : CP.inflight (CP.mount (Resolved client_failed_500))
                     <> [[]]) by discriminate.
  destruct (client_loading_until_request_ends
              (Resolved client_failed_500)
              (CP.mount (Resolved client_failed_500))
              (CP.reach_mount _) Hpending) as (Hui & _).
  split; [apply CP.reach_mount|]. split; [exact Hpending|].
  exact (f_equal CP.loading Hui).
Defined.

(** X19. Server-paginated variant.  After a non-2xx response the view is the
    error message "Erro: HTTP error! status: <code>" and nothing else: no
    search box, no sort control, no card.  After a rejected [fetch] the view
    is the thrown message in the same way, unless that message is empty: an
    empty message counts as no error, and the main view is shown with "Nenhuma
    receita encontrada." in the grid and no pagination. *)
Theorem failure_views
    (q s1 : SP.State) (r : Response SP.Data.t) (e : thrown) :
  ok r = false ->
  let failed := SP.run (on_response (SP.fetchRecipes q (Resolved r))) s1 in
  let rejected := SP.run (on_response (SP.fetchRecipes q (Rejected e))) s1 in
  SP.App failed
  = el "div" "status-message error"
      [Text "Erro: ";
       Text ("HTTP error! status: " ++ JS.Number_toString (status r))]
  /\ (message_of e <> "" ->
      SP.App rejected
      = el "div" "status-message error"
          [Text "Erro: "; Text (message_of e)])
  /\ (message_of e = "" ->
      SP.App rejected = el "div" "app-container" (SP.app_children rejected)
      /\ children_of (SP.grid rejected)
         = [el "p" "status-message" [Text "Nenhuma receita encontrada."]]
      /\ (1 <? SP.totalPages rejected) = false).
Proof.
  intros Hr failed rejected. subst failed rejected.
  unfold on_response, SP.fetchRecipes. rewrite Hr.
  split; [destruct s1; reflexivity|]. split.
  - intros He. destruct s1. cbn. unfold SP.App. cbn.
    destruct (message_of e); [congruence | reflexivity].
  - intros He. destruct s1. cbn. unfold SP.App. cbn. rewrite He.
    repeat split.
Qed.

(** A 500 during the search, and a rejection without a message. *)
Lemma failure_views_witness :
  ok failed_500 = false
  /\ message_of (ErrorObject "") = ""
  /\ SP.App (SP.run (on_response
                       (SP.fetchRecipes browsing (Resolved failed_500)))
                    browsing)
     = el "div" "status-message error"
         [Text "Erro: "; Text "HTTP error! status: 500"]
  /\ children_of
       (SP.grid (SP.run (on_response
                           (SP.fetchRecipes browsing
                                            (Rejected (ErrorObject ""))))
                        browsing))
     = [el "p" "status-message" [Text "Nenhuma receita encontrada."]].
Proof.
  pose proof (failure_views browsing browsing failed_500 (ErrorObject "")
                eq_refl) as H.
  cbv zeta in H. destruct H as (Hview & _ & Hempty).
  destruct (Hempty eq_refl) as (_ & Hgrid & _).
  split; [reflexivity|]. split; [reflexivity|].
  split; [exact Hview | exact Hgrid].
Defined.
